(** * APMTracer: span creation, context propagation and trace decoration

    A shallow embedding of [src/lib/APMTracer.js].  The JavaScript class
    works on mutable objects that its callers keep references to (the
    carrier, the [fields] argument of [startSpan], the tag map of a span,
    the node list of a trace), so the embedding threads an explicit store
    through every operation and lets an operation complete either normally
    or by throwing. *)

From Stdlib Require Import String Ascii ZArith List Bool Lia DecimalString.
From stdpp Require Import base option gmap strings list.

Local Open Scope string_scope.

(** ** JavaScript values and objects *)

Definition loc := nat.

(** The values that reach the tracer.  Numbers are restricted to the
    integers; [VObj] is a reference to an object of the store. *)
Inductive value : Type :=
| VUndefined
| VNull
| VBool (b : bool)
| VNum (n : Z)
| VStr (s : string)
| VObj (l : loc).

#[global] Instance value_eq_dec : EqDecision value.
Proof. solve_decision. Defined.

(** [ToBoolean]: what [if (v)], [!v] and [a || b] test. *)
Definition truthy (v : value) : bool :=
  match v with
  | VUndefined | VNull => false
  | VBool b => b
  | VNum n => negb (n =? 0)%Z
  | VStr s => negb (String.eqb s "")
  | VObj _ => true
  end.

Definition typeof (v : value) : string :=
  match v with
  | VUndefined => "undefined"
  | VNull => "object"
  | VBool _ => "boolean"
  | VNum _ => "number"
  | VStr _ => "string"
  | VObj _ => "object"
  end.

(** [===], the comparison a [switch] statement uses. *)
Definition strict_eq (a b : value) : bool := bool_decide (a = b).

(** A plain object: its own enumerable properties in [Object.keys] order,
    and the properties it sees through its prototype chain. *)
Definition props := list (string * value).

Record object : Type := mkObject {
  own : props;
  inherited : props
}.

Definition empty_object : object := {| own := []; inherited := [] |}.

Fixpoint own_lookup (k : string) (ps : props) : option value :=
  match ps with
  | [] => None
  | (k', v) :: ps' => if String.eqb k' k then Some v else own_lookup k ps'
  end.

(** [o[k] = v] on the own properties: an existing key keeps its place, a
    new key goes last. *)
Fixpoint own_assign (k : string) (v : value) (ps : props) : props :=
  match ps with
  | [] => [(k, v)]
  | (k', v') :: ps' =>
      if String.eqb k' k then (k, v) :: ps' else (k', v') :: own_assign k v ps'
  end.

Definition hasOwnProperty (o : object) (k : string) : bool :=
  match own_lookup k (own o) with Some _ => true | None => false end.

Definition object_get (o : object) (k : string) : value :=
  match own_lookup k (own o) with
  | Some v => v
  | None => default VUndefined (own_lookup k (inherited o))
  end.

Definition object_set (k : string) (v : value) (o : object) : object :=
  {| own := own_assign k v (own o); inherited := inherited o |}.

Definition own_keys (o : object) : list string := map fst (own o).

(** Strings are held as their UTF-8 bytes.  [ascii_toUpperCase] folds the
    letters a-z and leaves every other byte alone: this is what
    [String.prototype.toUpperCase] does to a string of ASCII characters.
    On other strings the built-in does more (it maps the dotless
    U+0131 to "I", for one), so the tracer below does not call this
    function: it calls the built-in, a parameter of the development. *)
Definition upper_ascii (c : ascii) : ascii :=
  let n := nat_of_ascii c in
  if (97 <=? n)%nat && (n <=? 122)%nat then ascii_of_nat (n - 32) else c.

Fixpoint ascii_toUpperCase (s : string) : string :=
  match s with
  | EmptyString => EmptyString
  | String c s' => String (upper_ascii c) (ascii_toUpperCase s')
  end.

Definition is_ascii (s : string) : bool :=
  forallb (fun c => (nat_of_ascii c <? 128)%nat) (list_ascii_of_string s).

(** The decimal name of an index, the key under which a string exposes
    its characters. *)
Definition index_key (i : nat) : string :=
  NilZero.string_of_uint (Nat.to_uint i).

Definition string_chars (s : string) : props :=
  imap (fun i c => (index_key i, VStr (String c EmptyString)))
       (list_ascii_of_string s).

(** ** The store *)

(** Modelled from the spec: the class [APMSpanContext] is imported from
    [./APMSpanContext], which is absent.  The spec gives its shape,
    "{spanId, traceId, parentId (optional), transaction (optional), level
    (optional), consumerCorrelationId (optional, set only after
    extraction)}", and the span provider "exposes ... access to its owning
    Trace". *)
Record APMSpanContext : Type := mkContext {
  ctx_id : value;
  ctx_traceId : value;
  ctx_parentId : value;
  ctx_transaction : value;
  ctx_level : value;
  ctx_consumerCorrelationId : value;
  ctx_trace : option loc
}.

(** Modelled from the spec: the class [APMSpan] is imported from
    [./APMSpan], which is absent: "constructible from (tracer, fields);
    exposes context(), tag get/set". *)
Record APMSpan : Type := mkSpan {
  span_operationName : value;
  span_tags : loc;
  span_context : loc
}.

Record CorrelationId : Type := mkCorrelationId {
  corr_value : value;
  corr_scope : value
}.

(** Modelled from the spec: the trace classes are absent.  "Trace: an
    ordered sequence of TraceNode, where TraceNode = {span, nodeType}.
    The first node is the root." *)
Record TraceNode : Type := mkNode {
  node_span : option loc;
  node_type : value;
  node_context : option loc;
  node_correlation : option CorrelationId
}.

Record APMTrace : Type := mkTrace { nodes : list TraceNode }.

Record store : Type := mkStore {
  objs : gmap loc object;
  ctxs : gmap loc APMSpanContext;
  spans : gmap loc APMSpan;
  traces : gmap loc APMTrace;
  console : list string;
  issued : nat
}.

Definition with_objs (f : gmap loc object -> gmap loc object) (st : store) : store :=
  {| objs := f (objs st); ctxs := ctxs st; spans := spans st;
     traces := traces st; console := console st; issued := issued st |}.

Definition with_ctxs (f : gmap loc APMSpanContext -> gmap loc APMSpanContext)
    (st : store) : store :=
  {| objs := objs st; ctxs := f (ctxs st); spans := spans st;
     traces := traces st; console := console st; issued := issued st |}.

Definition with_spans (f : gmap loc APMSpan -> gmap loc APMSpan) (st : store) : store :=
  {| objs := objs st; ctxs := ctxs st; spans := f (spans st);
     traces := traces st; console := console st; issued := issued st |}.

Definition with_traces (f : gmap loc APMTrace -> gmap loc APMTrace) (st : store) : store :=
  {| objs := objs st; ctxs := ctxs st; spans := spans st;
     traces := f (traces st); console := console st; issued := issued st |}.

Definition with_console (f : list string -> list string) (st : store) : store :=
  {| objs := objs st; ctxs := ctxs st; spans := spans st;
     traces := traces st; console := f (console st); issued := issued st |}.

Definition with_issued (f : nat -> nat) (st : store) : store :=
  {| objs := objs st; ctxs := ctxs st; spans := spans st;
     traces := traces st; console := console st; issued := f (issued st) |}.

(** ** Computations: a store transformer that returns or throws *)

Inductive completion (A : Type) : Type :=
| Normal (a : A)
| Throw (e : string).
Arguments Normal {A} a.
Arguments Throw {A} e.

Definition M (A : Type) : Type := store -> completion A * store.

Definition ret {A} (a : A) : M A := fun st => (Normal a, st).

Definition throw {A} (e : string) : M A := fun st => (Throw e, st).

Definition bind {A B} (m : M A) (k : A -> M B) : M B :=
  fun st =>
    match m st with
    | (Normal a, st') => k a st'
    | (Throw e, st') => (Throw e, st')
    end.

Declare Scope js_scope.
Delimit Scope js_scope with js.
Notation "'let*' x ':=' m 'in' k" := (bind m (fun x => k))
  (at level 10, x name, m at level 100, k at level 200) : js_scope.
Notation "m ';;' k" := (bind m (fun _ => k))
  (at level 100, k at level 200, right associativity) : js_scope.
Local Open Scope js_scope.

Definition TypeError : string := "TypeError".

Definition console_log (msg : string) : M unit :=
  fun st => (Normal tt, with_console (fun out => (out ++ [msg])%list) st).

(** [target[k]] as an expression. *)
Definition get_property (target : value) (k : string) : M value :=
  match target with
  | VUndefined | VNull => throw TypeError
  | VObj l =>
      fun st =>
        match objs st !! l with
        | Some o => (Normal (object_get o k), st)
        | None => (Throw TypeError, st)
        end
  | VStr s => ret (default VUndefined (own_lookup k (string_chars s)))
  | VBool _ | VNum _ => ret VUndefined
  end.

(** [target[k] = v] in strict code (the file is an ES module): assigning
    to a property of a primitive throws. *)
Definition set_property (target : value) (k : string) (v : value) : M unit :=
  match target with
  | VObj l =>
      fun st =>
        match objs st !! l with
        | Some o => (Normal tt, with_objs (insert l (object_set k v o)) st)
        | None => (Throw TypeError, st)
        end
  | _ => throw TypeError
  end.

(** [Object.keys(target)]. *)
Definition Object_keys (target : value) : M (list string) :=
  match target with
  | VUndefined | VNull => throw TypeError
  | VObj l =>
      fun st =>
        match objs st !! l with
        | Some o => (Normal (own_keys o), st)
        | None => (Throw TypeError, st)
        end
  | VStr s => ret (map fst (string_chars s))
  | VBool _ | VNum _ => ret []
  end.

(** [keys.forEach(body)], the callback updating the variables it closes
    over. *)
Fixpoint forEach {A} (ks : list string) (body : string -> A -> M A) (acc : A) : M A :=
  match ks with
  | [] => ret acc
  | k :: ks' => let* acc' := body k acc in forEach ks' body acc'
  end.

(** [{}] *)
Definition new_object : M loc :=
  fun st =>
    let l := fresh (dom (objs st)) in
    (Normal l, with_objs (insert l empty_object) st).

(** ** Imported modules *)

(** [./constants] is absent from the sources: its members are parameters
    of the development. *)
Record constants_module : Type := {
  CARRIER_TRACE_ID : string;
  CARRIER_CORRELATION_ID : string;
  CARRIER_TRANSACTION : string;
  CARRIER_LEVEL : string;
  PROP_SERVICE_NAME : string;
  PROP_BUILD_STAMP : string;
  NODE_TYPE_PRODUCER : value;
  CORR_ID_SCOPE_INTERACTION : value
}.

(** The format names exported by the [opentracing] package. *)
Record opentracing_module : Type := {
  FORMAT_HTTP_HEADERS : value;
  FORMAT_TEXT_MAP : value
}.

(** [./utils] is absent from the sources.  Its id generator is taken as
    the sequence of identifiers it hands out, call after call. *)
Record utils_module : Type := {
  id_sequence : nat -> value
}.

(** The built-ins of the JavaScript runtime that the tracer calls and
    that are not written out in this development:
    [String.prototype.toUpperCase], Unicode-aware and independent of the
    locale. *)
Record runtime_module : Type := {
  toUpperCase : string -> string
}.

(** The snapshot read from [./deployment-meta-data]. *)
Record DeploymentMetaData : Type := {
  serviceName : value;
  buildStamp : value
}.

(** The first argument of [inject]: a span context, or a span "for
    convenience" ([spanContext instanceof APMSpan]). *)
Inductive propagated : Type :=
| ASpan (s : loc)
| AContext (c : loc).

Module APMTracer.
Section Tracer.

Variable constants : constants_module.
Variable Constants : opentracing_module.
Variable utils : utils_module.
Variable runtime : runtime_module.

(** *** Collaborators *)

(** Modelled from the spec: [utils.generateSpanId] is absent.  "Id
    generator: produces fresh, globally-unique opaque identifiers for span
    ids and per-injection correlation ids."  The store counts the
    identifiers handed out so far. *)
Definition generateSpanId : M value :=
  fun st => (Normal (id_sequence utils (issued st)), with_issued S st).

Definition context_field {A} (field : APMSpanContext -> A) (c : loc) : M A :=
  fun st =>
    match ctxs st !! c with
    | Some x => (Normal (field x), st)
    | None => (Throw TypeError, st)
    end.

Definition getTraceId : loc -> M value := context_field ctx_traceId.
Definition getTransaction : loc -> M value := context_field ctx_transaction.
Definition getLevel : loc -> M value := context_field ctx_level.
Definition getTrace : loc -> M (option loc) := context_field ctx_trace.

(** Modelled from the spec: [new APMSpanContext(id, traceId, parentId,
    transaction, level)]; the constructor is absent.  The new context has
    no consumer correlation id ("set only after extraction") and belongs
    to no trace yet. *)
Definition new_APMSpanContext (id traceId parentId transaction level : value) : M loc :=
  fun st =>
    let c := fresh (dom (ctxs st)) in
    (Normal c,
     with_ctxs (insert c {| ctx_id := id; ctx_traceId := traceId;
                            ctx_parentId := parentId;
                            ctx_transaction := transaction; ctx_level := level;
                            ctx_consumerCorrelationId := VUndefined;
                            ctx_trace := None |}) st).

Definition set_consumer (v : value) (x : APMSpanContext) : APMSpanContext :=
  {| ctx_id := ctx_id x; ctx_traceId := ctx_traceId x;
     ctx_parentId := ctx_parentId x; ctx_transaction := ctx_transaction x;
     ctx_level := ctx_level x; ctx_consumerCorrelationId := v;
     ctx_trace := ctx_trace x |}.

Definition setConsumerCorrelationId (c : loc) (v : value) : M unit :=
  fun st =>
    match ctxs st !! c with
    | Some x => (Normal tt, with_ctxs (insert c (set_consumer v x)) st)
    | None => (Throw TypeError, st)
    end.

(** Modelled from the spec: [trace.setNodeType(type, context, corrId)];
    the trace class is absent.  The trace provider exposes "a method to
    append a typed node keyed by (type, context, correlation info)". *)
Definition setNodeType (t : loc) (nodeType : value) (c : loc) (corr : CorrelationId)
  : M unit :=
  fun st =>
    match traces st !! t with
    | Some tr =>
        let node := {| node_span := None; node_type := nodeType;
                       node_context := Some c; node_correlation := Some corr |} in
        (Normal tt, with_traces (insert t {| nodes := nodes tr ++ [node] |}) st)
    | None => (Throw TypeError, st)
    end.

Definition span_field {A} (field : APMSpan -> A) (s : loc) : M A :=
  fun st =>
    match spans st !! s with
    | Some x => (Normal (field x), st)
    | None => (Throw TypeError, st)
    end.

Definition context : loc -> M loc := span_field span_context.

Definition getTags (s : loc) : M value :=
  let* tags := span_field span_tags s in ret (VObj tags).

(** Modelled from the spec: [span.setTag(key, value)] of the absent
    [APMSpan]: the span provider exposes "tag get/set" on its tag map. *)
Definition setTag (s : loc) (k : string) (v : value) : M unit :=
  let* tags := getTags s in set_property tags k v.

(** Modelled from the spec: [new APMSpan(tracer, fields)]; the constructor
    is absent.  The span takes its operation name from
    [fields.operationName] and the ownership of [fields.tags]; it gets a
    context of its own with a fresh span id and trace id, and a trace
    whose root node it is.  Parent references ([childOf], [references])
    and the start time are left out. *)
Definition new_APMSpan (fields : value) : M loc :=
  let* operationName := get_property fields "operationName" in
  let* given := get_property fields "tags" in
  let* tags := (match given with VObj l => ret l | _ => new_object end) in
  let* spanId := generateSpanId in
  let* traceId := generateSpanId in
  let* c := new_APMSpanContext spanId traceId VUndefined VUndefined VUndefined in
  fun st =>
    let s := fresh (dom (spans st)) in
    let t := fresh (dom (traces st)) in
    let root := {| node_span := Some s; node_type := VUndefined;
                   node_context := Some c; node_correlation := None |} in
    let own_trace x :=
      {| ctx_id := ctx_id x; ctx_traceId := ctx_traceId x;
         ctx_parentId := ctx_parentId x; ctx_transaction := ctx_transaction x;
         ctx_level := ctx_level x;
         ctx_consumerCorrelationId := ctx_consumerCorrelationId x;
         ctx_trace := Some t |} in
    (Normal s,
     with_traces (insert t {| nodes := [root] |})
       (with_ctxs (alter own_trace c)
          (with_spans (insert s {| span_operationName := operationName;
                                   span_tags := tags;
                                   span_context := c |}) st))).

(** [{}.hasOwnProperty.call(target, k)] *)
Definition hasOwnProperty_call (target : value) (k : string) : M bool :=
  match target with
  | VUndefined | VNull => throw TypeError
  | VObj l =>
      fun st =>
        match objs st !! l with
        | Some o => (Normal (hasOwnProperty o k), st)
        | None => (Throw TypeError, st)
        end
  | VStr s =>
      ret (String.eqb k "length"
           || match own_lookup k (string_chars s) with Some _ => true | None => false end)
  | VBool _ | VNum _ => ret false
  end.

Definition trace_nodes (t : loc) : M (list TraceNode) :=
  fun st =>
    match traces st !! t with
    | Some tr => (Normal (nodes tr), st)
    | None => (Throw TypeError, st)
    end.

(** [a && b], the right operand evaluated only when the left one holds. *)
Definition and_then (a : bool) (b : M bool) : M bool :=
  if a then b else ret false.

Definition when (b : bool) (m : M unit) : M unit :=
  if b then m else ret tt.

(** *** The tracer (src/lib/APMTracer.js) *)

(** The closure stored under [TRACE_DECORATOR] by the constructor
    (lines 39-54); [deploymentMetaData] is the snapshot it captures. *)
Definition TRACE_DECORATOR (deploymentMetaData : DeploymentMetaData) (trace : loc)
  : M unit :=
  let* nodes := trace_nodes trace in
  match nodes with
  | [] => ret tt
  | rootNode :: _ =>
      match node_span rootNode with
      | None => ret tt
      | Some span =>
          let* missing :=
            and_then (truthy (serviceName deploymentMetaData))
              (let* tags := getTags span in
               let* has := hasOwnProperty_call tags (PROP_SERVICE_NAME constants) in
               ret (negb has)) in
          when missing
            (setTag span (PROP_SERVICE_NAME constants) (serviceName deploymentMetaData));;
          let* missing :=
            and_then (truthy (buildStamp deploymentMetaData))
              (let* tags := getTags span in
               let* has := hasOwnProperty_call tags (PROP_BUILD_STAMP constants) in
               ret (negb has)) in
          when missing
            (setTag span (PROP_BUILD_STAMP constants) (buildStamp deploymentMetaData))
      end
  end.

(** [startSpan(name, fields)] (lines 103-107). *)
Definition startSpan (name fields : value) : M loc :=
  let* fieldsWithOperation :=
    (if truthy fields then ret fields
     else let* o := new_object in ret (VObj o)) in
  set_property fieldsWithOperation "operationName" name;;
  new_APMSpan fieldsWithOperation.

(** [_injectHttpAndTextMap(spanContext, carrier)] (lines 167-176). *)
Definition _injectHttpAndTextMap (spanContext : loc) (carrier : value) : M unit :=
  let* traceId := getTraceId spanContext in
  set_property carrier (CARRIER_TRACE_ID constants) traceId;;
  let* correlationId := generateSpanId in
  set_property carrier (CARRIER_CORRELATION_ID constants) correlationId;;
  let* transaction := getTransaction spanContext in
  when (truthy transaction)
    (let* transaction := getTransaction spanContext in
     set_property carrier (CARRIER_TRANSACTION constants) transaction);;
  let* level := getLevel spanContext in
  when (truthy level)
    (let* level := getLevel spanContext in
     set_property carrier (CARRIER_LEVEL constants) level).

(** The [case] labels shared by the two [switch (format)] statements. *)
Definition http_or_text_map (format : value) : bool :=
  strict_eq format (FORMAT_HTTP_HEADERS Constants)
  || strict_eq format (FORMAT_TEXT_MAP Constants).

(** [inject(spanContext, format, carrier)] (lines 138-165). *)
Definition inject (spanContext : propagated) (format carrier : value) : M unit :=
  if negb (truthy carrier) then
    console_log "Carrier should not be null!"
  else if negb (String.eqb (typeof carrier) "object") then
    console_log "Carrier is not object!"
  else
    let* spanContext :=
      (match spanContext with
       | ASpan s => context s
       | AContext c => ret c
       end) in
    (if http_or_text_map format
     then _injectHttpAndTextMap spanContext carrier
     else console_log "Inject unknown format!");;
    let* trace := getTrace spanContext in
    match trace with
    | None => throw TypeError
    | Some trace =>
        let* value := get_property carrier (CARRIER_CORRELATION_ID constants) in
        setNodeType trace (NODE_TYPE_PRODUCER constants) spanContext
          {| corr_value := value;
             corr_scope := CORR_ID_SCOPE_INTERACTION constants |}
    end.

(** The local variables of [_extractHttpAndTextMap] that the [forEach]
    callback assigns. *)
Record extracted : Type := {
  correlationId : value;
  traceId : value;
  level : value;
  transaction : value
}.

(** The body of the callback (lines 222-236): one [switch] on the
    upper-cased key, the first matching [case] taken. *)
Definition scan_key (carrier : value) (objectKey : string) (acc : extracted)
  : M extracted :=
  let upper := toUpperCase runtime objectKey in
  if String.eqb upper (CARRIER_CORRELATION_ID constants) then
    let* v := get_property carrier objectKey in
    ret {| correlationId := v; traceId := traceId acc;
           level := level acc; transaction := transaction acc |}
  else if String.eqb upper (CARRIER_TRACE_ID constants) then
    let* v := get_property carrier objectKey in
    ret {| correlationId := correlationId acc; traceId := v;
           level := level acc; transaction := transaction acc |}
  else if String.eqb upper (CARRIER_TRANSACTION constants) then
    let* v := get_property carrier objectKey in
    ret {| correlationId := correlationId acc; traceId := traceId acc;
           level := level acc; transaction := v |}
  else if String.eqb upper (CARRIER_LEVEL constants) then
    let* v := get_property carrier objectKey in
    ret {| correlationId := correlationId acc; traceId := traceId acc;
           level := v; transaction := transaction acc |}
  else ret acc.

(** [_extractHttpAndTextMap(carrier)] (lines 216-243). *)
Definition _extractHttpAndTextMap (carrier : value) : M loc :=
  let init := {| correlationId := VNull; traceId := VUndefined;
                 level := VUndefined; transaction := VUndefined |} in
  let* keys := Object_keys carrier in
  let* found := forEach keys (scan_key carrier) init in
  let* id := generateSpanId in
  let* spanContext :=
    new_APMSpanContext id (traceId found) VUndefined (transaction found) (level found) in
  setConsumerCorrelationId spanContext (correlationId found);;
  ret spanContext.

(** [extract(format, carrier)] (lines 200-214). *)
Definition extract (format carrier : value) : M loc :=
  if http_or_text_map format
  then _extractHttpAndTextMap carrier
  else
    console_log "Extract unknown format";;
    new_APMSpanContext VUndefined VUndefined VUndefined VUndefined VUndefined.

End Tracer.
End APMTracer.

(** ** Well-formed parameters *)

Definition carrier_keys (K : constants_module) : list string :=
  [CARRIER_TRACE_ID K; CARRIER_CORRELATION_ID K; CARRIER_TRANSACTION K; CARRIER_LEVEL K].

(** The four carrier keys are four different names ... *)
Definition distinct_keys (K : constants_module) : Prop := NoDup (carrier_keys K).

(** ... written in capitals, the form [toUpperCase] produces. *)
Definition capital_keys (R : runtime_module) (K : constants_module) : Prop :=
  Forall (fun k => toUpperCase R k = k) (carrier_keys K).

(** On a string of ASCII characters the built-in [toUpperCase] folds the
    letters a-z and nothing else. *)
Definition folds_ascii (R : runtime_module) : Prop :=
  forall s, is_ascii s = true -> toUpperCase R s = ascii_toUpperCase s.

(** No identifier is handed out twice ("globally-unique"). *)
Definition unique_ids (U : utils_module) : Prop :=
  forall i j : nat, id_sequence U i = id_sequence U j -> i = j.

(** ** The spec's reading of extraction

    "Case-insensitive key matching against the same four names": the
    value recovered for a name is the one stored under the last own key of
    the carrier that spells the name in any letter case.  This definition
    follows the spec and is compared with the code's [forEach] loop. *)

Definition eq_ignore_case (R : runtime_module) (a b : string) : bool :=
  String.eqb (toUpperCase R a) (toUpperCase R b).

Definition spec_recovered (R : runtime_module) (name : string) (o : object)
  : option value :=
  object_get o <$> last (List.filter (fun k => eq_ignore_case R k name) (own_keys o)).

(** ** The tag map after one guarded [setTag]

    What one [if (value && !hasOwnProperty(tags, key)) setTag(key, value)]
    of the decorator leaves of the tag map [o]; used to state its effect. *)

Definition tag_if_missing (k : string) (v : value) (o : object) : object :=
  if truthy v && negb (hasOwnProperty o k) then object_set k v o else o.

(** ** A sample configuration

    Concrete parameters and stores on which the statements below are
    exercised. *)
Module Sample.

Definition hawkular : constants_module :=
  {| CARRIER_TRACE_ID := "HWKAPMTRACEID";
     CARRIER_CORRELATION_ID := "HWKAPMID";
     CARRIER_TRANSACTION := "HWKAPMTXN";
     CARRIER_LEVEL := "HWKAPMLEVEL";
     PROP_SERVICE_NAME := "service";
     PROP_BUILD_STAMP := "buildStamp";
     NODE_TYPE_PRODUCER := VStr "Producer";
     CORR_ID_SCOPE_INTERACTION := VStr "Interaction" |}.

Definition opentracing : opentracing_module :=
  {| FORMAT_HTTP_HEADERS := VStr "http_headers";
     FORMAT_TEXT_MAP := VStr "text_map" |}.

Definition counter : utils_module :=
  {| id_sequence := fun n => VNum (Z.of_nat n) |}.

(** The built-in restricted to what it does on ASCII strings; the keys of
    the samples below are ASCII. *)
Definition ascii : runtime_module :=
  {| toUpperCase := ascii_toUpperCase |}.

Definition FORMAT_BINARY : value := VStr "binary".

(** A context that owns trace 0; its ids are the first two the generator
    handed out. *)
Definition checkout_context : APMSpanContext :=
  {| ctx_id := VNum 0; ctx_traceId := VNum 1; ctx_parentId := VUndefined;
     ctx_transaction := VStr "checkout"; ctx_level := VStr "All";
     ctx_consumerCorrelationId := VUndefined; ctx_trace := Some 0 |}.

(** The same context with an empty level. *)
Definition unlevelled_context : APMSpanContext :=
  {| ctx_id := VNum 0; ctx_traceId := VNum 1; ctx_parentId := VUndefined;
     ctx_transaction := VStr "checkout"; ctx_level := VStr "";
     ctx_consumerCorrelationId := VUndefined; ctx_trace := Some 0 |}.

Definition store_with (x : APMSpanContext) (carrier : object) : store :=
  {| objs := {[ 5 := carrier ]};
     ctxs := {[ 0 := x ]};
     spans := ∅;
     traces := {[ 0 := {| nodes := [] |} ]};
     console := [];
     issued := 2 |}.

Definition mixed_case_carrier : object :=
  {| own := [("hwkapmtraceid", VStr "t1"); ("X-Request-Id", VStr "r");
             ("HwkApmId", VStr "c1"); ("HWKAPMTRACEID", VStr "t2")];
     inherited := [] |}.

(** A trace whose root span already carries a service tag. *)
Definition tagged_store : store :=
  {| objs := {[ 7 := {| own := [("service", VStr "checkout")];
                        inherited := [("buildStamp", VStr "old")] |} ]};
     ctxs := {[ 0 := checkout_context ]};
     spans := {[ 3 := {| span_operationName := VStr "A"; span_tags := 7;
                         span_context := 0 |} ]};
     traces := {[ 0 := {| nodes := [ {| node_span := Some 3; node_type := VUndefined;
                                        node_context := Some 0;
                                        node_correlation := None |} ] |} ]};
     console := [];
     issued := 2 |}.

Definition other_service : DeploymentMetaData :=
  {| serviceName := VStr "other"; buildStamp := VStr "123" |}.

(** The [fields] argument [{operationName: "B", startTime: 7}]. *)
Definition fields_store : store :=
  {| objs := {[ 4 := {| own := [("operationName", VStr "B"); ("startTime", VNum 7)];
                        inherited := [] |} ]};
     ctxs := ∅; spans := ∅; traces := ∅; console := []; issued := 0 |}.

End Sample.

(** ** Carriers that are reused

    A carrier that spells the four names, where it has them at all, in
    capitals only: no own key differs from a carrier key by letter case
    alone. *)
Definition capital_spellings (R : runtime_module) (K : constants_module) (o : object)
  : Prop :=
  forall k name,
    In k (own_keys o) -> In name (carrier_keys K) ->
    eq_ignore_case R k name = true -> k = name.

(** The carrier [o] after [_injectHttpAndTextMap] has written the context
    [x] and the correlation id [correlation] into it; used to state the
    effect of [inject]. *)
Definition injected (K : constants_module) (x : APMSpanContext) (correlation : value)
    (o : object) : object :=
  let o1 := object_set (CARRIER_TRACE_ID K) (ctx_traceId x) o in
  let o2 := object_set (CARRIER_CORRELATION_ID K) correlation o1 in
  let o3 := if truthy (ctx_transaction x)
            then object_set (CARRIER_TRANSACTION K) (ctx_transaction x) o2
            else o2 in
  if truthy (ctx_level x)
  then object_set (CARRIER_LEVEL K) (ctx_level x) o3
  else o3.

(** The node that [inject] appends to the trace of context [c]. *)
Definition producer_node (K : constants_module) (c : loc) (correlation : value)
  : TraceNode :=
  {| node_span := None;
     node_type := NODE_TYPE_PRODUCER K;
     node_context := Some c;
     node_correlation :=
       Some {| corr_value := correlation;
               corr_scope := CORR_ID_SCOPE_INTERACTION K |} |}.

Module Reuse.

(** Request headers left over from an earlier call: an unrelated header
    and a transaction. *)
Definition stale_headers : object :=
  {| own := [("Accept", VStr "text/html"); ("HWKAPMTXN", VStr "stale")];
     inherited := [] |}.

(** A context with neither transaction nor level. *)
Definition bare_context : APMSpanContext :=
  {| ctx_id := VNum 0; ctx_traceId := VNum 1; ctx_parentId := VUndefined;
     ctx_transaction := VUndefined; ctx_level := VUndefined;
     ctx_consumerCorrelationId := VUndefined; ctx_trace := Some 0 |}.

(** A context that belongs to no trace. *)
Definition detached_context : APMSpanContext :=
  {| ctx_id := VNum 0; ctx_traceId := VNum 1; ctx_parentId := VUndefined;
     ctx_transaction := VStr "checkout"; ctx_level := VUndefined;
     ctx_consumerCorrelationId := VUndefined; ctx_trace := None |}.

(** The store of [Sample.store_with] with a span 3 whose context is 0. *)
Definition store_with_span (x : APMSpanContext) (carrier : object) : store :=
  {| objs := {[ 5 := carrier; 7 := empty_object ]};
     ctxs := {[ 0 := x ]};
     spans := {[ 3 := {| span_operationName := VStr "A"; span_tags := 7;
                         span_context := 0 |} ]};
     traces := {[ 0 := {| nodes := [] |} ]};
     console := [];
     issued := 2 |}.

(** Two spellings of the trace id, the lower-case one last. *)
Definition twice_spelled : object :=
  {| own := [("HWKAPMTRACEID", VStr "first"); ("hwkapmid", VStr "c");
             ("hwkapmtraceid", VStr "second"); ("Host", VStr "example.org")];
     inherited := [] |}.

End Reuse.

(** * Properties *)

Import APMTracer.
Local Open Scope list_scope.

(** ** Objects *)

Lemma own_lookup_assign_eq k v ps : own_lookup k (own_assign k v ps) = Some v.
Proof.
  induction ps as [|[k' v'] ps IH]; simpl.
  - by rewrite String.eqb_refl.
  - destruct (String.eqb k' k) eqn:E; simpl.
    + by rewrite String.eqb_refl.
    + by rewrite E.
Qed.

Lemma own_lookup_assign_ne k k' v ps :
  k <> k' -> own_lookup k' (own_assign k v ps) = own_lookup k' ps.
Proof.
  intros Hne. induction ps as [|[k0 v0] ps IH]; simpl.
  - apply String.eqb_neq in Hne. by rewrite Hne.
  - destruct (String.eqb k0 k) eqn:E; simpl.
    + apply String.eqb_eq in E. subst k0.
      apply String.eqb_neq in Hne. by rewrite Hne.
    + by rewrite IH.
Qed.

Lemma own_assign_absent k v ps :
  own_lookup k ps = None -> own_assign k v ps = ps ++ [(k, v)].
Proof.
  induction ps as [|[k0 v0] ps IH]; simpl; [done|].
  destruct (String.eqb k0 k); [done|]. intros H. by rewrite IH.
Qed.

Lemma object_get_set_eq k v o : object_get (object_set k v o) k = v.
Proof. unfold object_get, object_set. simpl. by rewrite own_lookup_assign_eq. Qed.

Lemma object_get_set_ne k k' v o :
  k <> k' -> object_get (object_set k v o) k' = object_get o k'.
Proof.
  intros Hne. unfold object_get, object_set. simpl.
  by rewrite own_lookup_assign_ne.
Qed.

Lemma hasOwnProperty_set_eq k v o : hasOwnProperty (object_set k v o) k = true.
Proof. unfold hasOwnProperty, object_set. simpl. by rewrite own_lookup_assign_eq. Qed.

Lemma truthy_defined v : truthy v = true -> v <> VUndefined.
Proof. by destruct v. Qed.

(** ** The format switch *)

Lemma http_or_text_map_true Constants format :
  format = FORMAT_HTTP_HEADERS Constants \/ format = FORMAT_TEXT_MAP Constants ->
  http_or_text_map Constants format = true.
Proof.
  unfold http_or_text_map, strict_eq. intros [-> | ->].
  - by rewrite bool_decide_eq_true_2.
  - apply orb_true_iff. right. by apply bool_decide_eq_true_2.
Qed.

Lemma http_or_text_map_false Constants format :
  format <> FORMAT_HTTP_HEADERS Constants -> format <> FORMAT_TEXT_MAP Constants ->
  http_or_text_map Constants format = false.
Proof.
  intros H1 H2. unfold http_or_text_map, strict_eq.
  by rewrite !bool_decide_eq_false_2.
Qed.

(** ** Carrier validation in [inject] *)

(** C6: whatever the format and the span context, [inject] with a carrier
    that is [null] or not an object (the number 42, say) prints one
    diagnostic, returns normally and changes nothing else: no object (so
    no carrier), no context, no span and no trace of the store is touched,
    no PRODUCER node is appended and no identifier is consumed. *)
Theorem inject_invalid_carrier_is_noop
    constants Constants utils who format carrier (st : store) :
  (forall l, carrier <> VObj l) ->
  exists msg st',
    inject constants Constants utils who format carrier st = (Normal tt, st')
    /\ (msg = "Carrier should not be null!" \/ msg = "Carrier is not object!")
    /\ console st' = console st ++ [msg]
    /\ objs st' = objs st
    /\ ctxs st' = ctxs st
    /\ spans st' = spans st
    /\ traces st' = traces st
    /\ issued st' = issued st.
Proof.
  intros Hcarrier. unfold inject.
  destruct (truthy carrier) eqn:Ht; simpl.
  - destruct carrier as [| |b|n|s|l]; try discriminate; simpl.
    + exists "Carrier is not object!". eexists. split; [reflexivity|]. naive_solver.
    + exists "Carrier is not object!". eexists. split; [reflexivity|]. naive_solver.
    + exists "Carrier is not object!". eexists. split; [reflexivity|]. naive_solver.
    + by destruct (Hcarrier l).
  - exists "Carrier should not be null!". eexists. split; [reflexivity|]. naive_solver.
Qed.

Lemma inject_invalid_carrier_is_noop_witness :
  exists msg st',
    inject Sample.hawkular Sample.opentracing Sample.counter (AContext 0)
      (FORMAT_TEXT_MAP Sample.opentracing) (VNum 42)
      (Sample.store_with Sample.checkout_context empty_object) = (Normal tt, st')
    /\ (msg = "Carrier should not be null!" \/ msg = "Carrier is not object!")
    /\ console st' = [msg]
    /\ objs st' = objs (Sample.store_with Sample.checkout_context empty_object)
    /\ ctxs st' = ctxs (Sample.store_with Sample.checkout_context empty_object)
    /\ spans st' = spans (Sample.store_with Sample.checkout_context empty_object)
    /\ traces st' = traces (Sample.store_with Sample.checkout_context empty_object)
    /\ issued st' = issued (Sample.store_with Sample.checkout_context empty_object).
Proof.
  apply (inject_invalid_carrier_is_noop Sample.hawkular Sample.opentracing
           Sample.counter (AContext 0) (FORMAT_TEXT_MAP Sample.opentracing) (VNum 42)
           (Sample.store_with Sample.checkout_context empty_object)).
  intros l. discriminate.
Defined.

(** ** Unrecognized formats *)

(** C4: with a format that is neither HTTP_HEADERS nor TEXT_MAP and a
    carrier that is an object, [inject] returns normally and leaves every
    object of the store, the carrier included, as it was; it prints a
    diagnostic and still appends to the trace that owns the context a
    PRODUCER node whose correlation id is the value read from the carrier
    under the correlation-id key, with interaction scope. *)
Theorem inject_unknown_format_still_tags_trace
    constants Constants utils format c x l o t tr (st : store) :
  format <> FORMAT_HTTP_HEADERS Constants ->
  format <> FORMAT_TEXT_MAP Constants ->
  objs st !! l = Some o ->
  ctxs st !! c = Some x ->
  ctx_trace x = Some t ->
  traces st !! t = Some tr ->
  exists st',
    inject constants Constants utils (AContext c) format (VObj l) st = (Normal tt, st')
    /\ objs st' = objs st
    /\ ctxs st' = ctxs st
    /\ issued st' = issued st
    /\ console st' = console st ++ ["Inject unknown format!"]
    /\ traces st' =
         <[t := {| nodes := nodes tr ++
                     [ {| node_span := None;
                          node_type := NODE_TYPE_PRODUCER constants;
                          node_context := Some c;
                          node_correlation :=
                            Some {| corr_value :=
                                      object_get o (CARRIER_CORRELATION_ID constants);
                                    corr_scope := CORR_ID_SCOPE_INTERACTION constants |}
                       |} ] |}]> (traces st).
Proof.
  intros Hf1 Hf2 Hl Hc Ht Htr. unfold inject. simpl.
  rewrite (http_or_text_map_false _ _ Hf1 Hf2).
  unfold bind, ret, console_log, getTrace, context_field, setNodeType. simpl.
  rewrite Hc, Ht. simpl. rewrite Hl. simpl. rewrite Htr.
  eexists. split; [reflexivity|]. simpl. done.
Qed.

Lemma inject_unknown_format_still_tags_trace_witness :
  exists st',
    inject Sample.hawkular Sample.opentracing Sample.counter (AContext 0)
      Sample.FORMAT_BINARY (VObj 5)
      (Sample.store_with Sample.checkout_context empty_object) = (Normal tt, st')
    /\ objs st' = {[ 5 := empty_object ]}
    /\ ctxs st' = {[ 0 := Sample.checkout_context ]}
    /\ issued st' = 2
    /\ console st' = ["Inject unknown format!"]
    /\ traces st' =
         <[0 := {| nodes :=
                     [ {| node_span := None;
                          node_type := VStr "Producer";
                          node_context := Some 0;
                          node_correlation :=
                            Some {| corr_value := VUndefined;
                                    corr_scope := VStr "Interaction" |} |} ] |}]>
           {[ 0 := {| nodes := [] |} ]}.
Proof.
  apply (inject_unknown_format_still_tags_trace Sample.hawkular Sample.opentracing
           Sample.counter Sample.FORMAT_BINARY 0 Sample.checkout_context 5
           empty_object 0 {| nodes := [] |}
           (Sample.store_with Sample.checkout_context empty_object));
    first [ discriminate | reflexivity ].
Defined.

(** C5: with a format that is neither HTTP_HEADERS nor TEXT_MAP,
    [extract] returns normally, whatever the carrier ([null] included): it
    prints a diagnostic and returns a new context object, never [null],
    all of whose fields are undefined; in particular it has no trace id. *)
Theorem extract_unknown_format_gives_empty_context
    constants Constants utils runtime format carrier (st : store) :
  format <> FORMAT_HTTP_HEADERS Constants ->
  format <> FORMAT_TEXT_MAP Constants ->
  exists c st',
    extract constants Constants utils runtime format carrier st = (Normal c, st')
    /\ ctxs st !! c = None
    /\ ctxs st' !! c =
         Some {| ctx_id := VUndefined; ctx_traceId := VUndefined;
                 ctx_parentId := VUndefined; ctx_transaction := VUndefined;
                 ctx_level := VUndefined; ctx_consumerCorrelationId := VUndefined;
                 ctx_trace := None |}
    /\ console st' = console st ++ ["Extract unknown format"]
    /\ objs st' = objs st
    /\ issued st' = issued st.
Proof.
  intros Hf1 Hf2. unfold extract.
  rewrite (http_or_text_map_false _ _ Hf1 Hf2).
  unfold bind, console_log, new_APMSpanContext. simpl.
  eexists _, _. split; [reflexivity|]. simpl.
  split; [apply not_elem_of_dom, is_fresh|].
  split; [apply lookup_insert_eq|]. done.
Qed.

Lemma extract_unknown_format_gives_empty_context_witness :
  exists c st',
    extract Sample.hawkular Sample.opentracing Sample.counter Sample.ascii Sample.FORMAT_BINARY VNull
      (Sample.store_with Sample.checkout_context empty_object) = (Normal c, st')
    /\ ctxs (Sample.store_with Sample.checkout_context empty_object) !! c = None
    /\ ctxs st' !! c =
         Some {| ctx_id := VUndefined; ctx_traceId := VUndefined;
                 ctx_parentId := VUndefined; ctx_transaction := VUndefined;
                 ctx_level := VUndefined; ctx_consumerCorrelationId := VUndefined;
                 ctx_trace := None |}
    /\ console st' = ["Extract unknown format"]
    /\ objs st' = {[ 5 := empty_object ]}
    /\ issued st' = 2.
Proof.
  apply (extract_unknown_format_gives_empty_context Sample.hawkular Sample.opentracing
           Sample.counter Sample.ascii Sample.FORMAT_BINARY VNull
           (Sample.store_with Sample.checkout_context empty_object));
    discriminate.
Defined.

(** C8: the call [extract(FORMAT_TEXT_MAP, null)] does not return: the
    recognized-format path hands the carrier to [Object.keys] unchecked,
    and [Object.keys(null)] throws a TypeError, which [extract] lets
    through to its caller. *)
Theorem extract_null_carrier_throws constants Constants utils runtime (st : store) :
  extract constants Constants utils runtime (FORMAT_TEXT_MAP Constants) VNull st
  = (Throw TypeError, st).
Proof.
  unfold extract.
  rewrite http_or_text_map_true by (by right).
  reflexivity.
Qed.

(** ** Injection into a recognized format *)

(** What [_injectHttpAndTextMap] leaves in the store: one identifier
    consumed and the carrier rewritten, nothing else. *)
Lemma injectHttpAndTextMap_effect constants utils c x l o (st : store) :
  ctxs st !! c = Some x ->
  objs st !! l = Some o ->
  _injectHttpAndTextMap constants utils c (VObj l) st =
    (Normal tt,
     {| objs :=
          <[l :=
              let o1 := object_set (CARRIER_TRACE_ID constants) (ctx_traceId x) o in
              let o2 := object_set (CARRIER_CORRELATION_ID constants)
                          (id_sequence utils (issued st)) o1 in
              let o3 := if truthy (ctx_transaction x)
                        then object_set (CARRIER_TRANSACTION constants)
                               (ctx_transaction x) o2
                        else o2 in
              if truthy (ctx_level x)
              then object_set (CARRIER_LEVEL constants) (ctx_level x) o3
              else o3]> (objs st);
        ctxs := ctxs st; spans := spans st; traces := traces st;
        console := console st; issued := S (issued st) |}).
Proof.
  intros Hc Hl.
  unfold _injectHttpAndTextMap, bind, when, getTraceId, getTransaction, getLevel,
    context_field, generateSpanId, ret, set_property.
  simpl.
  repeat (first [rewrite Hc | rewrite Hl | rewrite lookup_insert_eq]; simpl).
  destruct (truthy (ctx_transaction x)); simpl;
    repeat (first [rewrite Hc | rewrite Hl | rewrite lookup_insert_eq]; simpl);
    destruct (truthy (ctx_level x)); simpl;
    repeat (first [rewrite Hc | rewrite Hl | rewrite lookup_insert_eq]; simpl);
    unfold with_objs; simpl; rewrite ?insert_insert_eq; reflexivity.
Qed.

Lemma distinct_keys_ne K :
  distinct_keys K ->
  CARRIER_TRACE_ID K <> CARRIER_CORRELATION_ID K
  /\ CARRIER_TRACE_ID K <> CARRIER_TRANSACTION K
  /\ CARRIER_TRACE_ID K <> CARRIER_LEVEL K
  /\ CARRIER_CORRELATION_ID K <> CARRIER_TRANSACTION K
  /\ CARRIER_CORRELATION_ID K <> CARRIER_LEVEL K
  /\ CARRIER_TRANSACTION K <> CARRIER_LEVEL K.
Proof.
  unfold distinct_keys, carrier_keys.
  rewrite !NoDup_cons, !not_elem_of_cons. intuition congruence.
Qed.

(** The store after [inject] on a recognized format, whether the final
    tagging of the trace succeeds or not. *)
Lemma inject_recognized_run constants Constants utils format c x l o (st : store) :
  format = FORMAT_HTTP_HEADERS Constants \/ format = FORMAT_TEXT_MAP Constants ->
  ctxs st !! c = Some x ->
  objs st !! l = Some o ->
  exists r tr,
    inject constants Constants utils (AContext c) format (VObj l) st =
    (r,
     {| objs :=
          <[l :=
              let o1 := object_set (CARRIER_TRACE_ID constants) (ctx_traceId x) o in
              let o2 := object_set (CARRIER_CORRELATION_ID constants)
                          (id_sequence utils (issued st)) o1 in
              let o3 := if truthy (ctx_transaction x)
                        then object_set (CARRIER_TRANSACTION constants)
                               (ctx_transaction x) o2
                        else o2 in
              if truthy (ctx_level x)
              then object_set (CARRIER_LEVEL constants) (ctx_level x) o3
              else o3]> (objs st);
        ctxs := ctxs st; spans := spans st; traces := tr;
        console := console st; issued := S (issued st) |}).
Proof.
  intros Hf Hc Hl. unfold inject. simpl.
  rewrite (http_or_text_map_true _ _ Hf).
  unfold bind at 1. simpl. unfold bind at 1.
  rewrite (injectHttpAndTextMap_effect _ _ _ _ _ _ _ Hc Hl).
  unfold bind, getTrace, context_field, setNodeType. simpl. rewrite Hc.
  destruct (ctx_trace x) as [t|]; simpl; [|by eexists _, _].
  rewrite lookup_insert_eq. simpl.
  destruct (traces st !! t); by eexists _, _.
Qed.

(** C1: for both recognized formats, every context [x] and every carrier
    that is an object, [inject] leaves in the carrier the context's trace
    id under TRACE_ID and, under CORRELATION_ID, an identifier that the
    generator had not handed out before (so not the context's own id, when
    that came from the generator); a second [inject] of the same context
    in the same format writes another correlation id.  TRANSACTION and
    LEVEL are written exactly when the context's value is truthy, hence
    only when the context defines them; otherwise the carrier keeps what
    it had under these keys. *)
Theorem inject_writes_trace_id_and_fresh_correlation_id
    constants Constants utils format c x l o (st : store) :
  format = FORMAT_HTTP_HEADERS Constants \/ format = FORMAT_TEXT_MAP Constants ->
  distinct_keys constants ->
  unique_ids utils ->
  ctxs st !! c = Some x ->
  objs st !! l = Some o ->
  let st1 := (inject constants Constants utils (AContext c) format (VObj l) st).2 in
  let st2 := (inject constants Constants utils (AContext c) format (VObj l) st1).2 in
  exists o1 o2,
    objs st1 !! l = Some o1
    /\ objs st2 !! l = Some o2
    /\ object_get o1 (CARRIER_TRACE_ID constants) = ctx_traceId x
    /\ object_get o2 (CARRIER_TRACE_ID constants) = ctx_traceId x
    /\ object_get o1 (CARRIER_CORRELATION_ID constants) = id_sequence utils (issued st)
    /\ (forall j, j < issued st ->
          id_sequence utils j <> object_get o1 (CARRIER_CORRELATION_ID constants))
    /\ (forall j, j < issued st -> ctx_id x = id_sequence utils j ->
          object_get o1 (CARRIER_CORRELATION_ID constants) <> ctx_id x)
    /\ object_get o2 (CARRIER_CORRELATION_ID constants)
       <> object_get o1 (CARRIER_CORRELATION_ID constants)
    /\ own_lookup (CARRIER_TRANSACTION constants) (own o1)
       = (if truthy (ctx_transaction x) then Some (ctx_transaction x)
          else own_lookup (CARRIER_TRANSACTION constants) (own o))
    /\ own_lookup (CARRIER_LEVEL constants) (own o1)
       = (if truthy (ctx_level x) then Some (ctx_level x)
          else own_lookup (CARRIER_LEVEL constants) (own o))
    /\ (own_lookup (CARRIER_TRANSACTION constants) (own o1)
        <> own_lookup (CARRIER_TRANSACTION constants) (own o) ->
        ctx_transaction x <> VUndefined)
    /\ (own_lookup (CARRIER_LEVEL constants) (own o1)
        <> own_lookup (CARRIER_LEVEL constants) (own o) ->
        ctx_level x <> VUndefined).
Proof.
  intros Hf Hk Hu Hc Hl st1 st2.
  destruct (distinct_keys_ne _ Hk) as (Htc & Htx & Htl & Hcx & Hcl & Hxl).
  destruct (inject_recognized_run constants Constants utils format c x l o st Hf Hc Hl)
    as (r1 & tr1 & E1).
  assert (Hc1 : ctxs st1 !! c = Some x) by (subst st1; rewrite E1; exact Hc).
  assert (Hl1 : exists o1, objs st1 !! l = Some o1
            /\ object_get o1 (CARRIER_TRACE_ID constants) = ctx_traceId x
            /\ object_get o1 (CARRIER_CORRELATION_ID constants)
               = id_sequence utils (issued st)
            /\ own_lookup (CARRIER_TRANSACTION constants) (own o1)
               = (if truthy (ctx_transaction x) then Some (ctx_transaction x)
                  else own_lookup (CARRIER_TRANSACTION constants) (own o))
            /\ own_lookup (CARRIER_LEVEL constants) (own o1)
               = (if truthy (ctx_level x) then Some (ctx_level x)
                  else own_lookup (CARRIER_LEVEL constants) (own o))).
  { subst st1. rewrite E1. simpl. eexists. split; [apply lookup_insert_eq|].
    destruct (truthy (ctx_transaction x)), (truthy (ctx_level x)); simpl;
      unfold object_get; simpl;
      rewrite ?own_lookup_assign_eq;
      repeat (rewrite own_lookup_assign_ne by congruence;
              rewrite ?own_lookup_assign_eq);
      done. }
  destruct Hl1 as (o1 & Hl1 & Ht1 & Hcorr1 & Htxn1 & Hlvl1).
  assert (Hi1 : issued st1 = S (issued st)) by (subst st1; by rewrite E1).
  destruct (inject_recognized_run constants Constants utils format c x l o1 st1
              Hf Hc1 Hl1) as (r2 & tr2 & E2).
  fold st2 in E2 |- *.
  assert (Hl2 : exists o2, objs st2 !! l = Some o2
            /\ object_get o2 (CARRIER_TRACE_ID constants) = ctx_traceId x
            /\ object_get o2 (CARRIER_CORRELATION_ID constants)
               = id_sequence utils (issued st1)).
  { subst st2. rewrite E2. simpl. eexists. split; [apply lookup_insert_eq|].
    destruct (truthy (ctx_transaction x)), (truthy (ctx_level x)); simpl;
      unfold object_get; simpl;
      rewrite ?own_lookup_assign_eq;
      repeat (rewrite own_lookup_assign_ne by congruence;
              rewrite ?own_lookup_assign_eq);
      done. }
  destruct Hl2 as (o2 & Hl2 & Ht2 & Hcorr2).
  exists o1, o2. repeat split; try assumption.
  - intros j Hj E. rewrite Hcorr1 in E. apply Hu in E. lia.
  - intros j Hj Hid E. rewrite Hcorr1, Hid in E. apply Hu in E. lia.
  - rewrite Hcorr1, Hcorr2, Hi1. intros E. apply Hu in E. lia.
  - rewrite Htxn1. destruct (truthy (ctx_transaction x)) eqn:Et; [|done].
    intros _. by apply truthy_defined.
  - rewrite Hlvl1. destruct (truthy (ctx_level x)) eqn:Et; [|done].
    intros _. by apply truthy_defined.
Qed.

(** ** Extraction from a recognized format *)

Lemma last_filter_cons (p : string -> bool) (g : string -> value) d k ks :
  default d (g <$> last (List.filter p (k :: ks)))
  = default (if p k then g k else d) (g <$> last (List.filter p ks)).
Proof.
  simpl. destruct (p k); [|done].
  rewrite last_cons. by destruct (last (List.filter p ks)).
Qed.

(** The [forEach] loop over the keys [ks] of an object carrier: each of
    the four variables ends up with the value under the last key whose
    upper-case form is its name, or keeps the value it had. *)
Lemma forEach_scan_key constants runtime l o ks acc (st : store) :
  distinct_keys constants ->
  objs st !! l = Some o ->
  exists found,
    forEach ks (scan_key constants runtime (VObj l)) acc st = (Normal found, st)
    /\ correlationId found =
         default (correlationId acc)
           (object_get o <$> last (List.filter
              (fun k => String.eqb (toUpperCase runtime k) (CARRIER_CORRELATION_ID constants)) ks))
    /\ traceId found =
         default (traceId acc)
           (object_get o <$> last (List.filter
              (fun k => String.eqb (toUpperCase runtime k) (CARRIER_TRACE_ID constants)) ks))
    /\ transaction found =
         default (transaction acc)
           (object_get o <$> last (List.filter
              (fun k => String.eqb (toUpperCase runtime k) (CARRIER_TRANSACTION constants)) ks))
    /\ level found =
         default (level acc)
           (object_get o <$> last (List.filter
              (fun k => String.eqb (toUpperCase runtime k) (CARRIER_LEVEL constants)) ks)).
Proof.
  intros Hk Hl.
  destruct (distinct_keys_ne _ Hk) as (Htc & Htx & Htl & Hcx & Hcl & Hxl).
  revert acc. induction ks as [|k ks IH]; intros acc.
  - exists acc. by simpl.
  - cbn [forEach]. unfold bind at 1.
    assert (Hstep : exists acc',
      scan_key constants runtime (VObj l) k acc st = (Normal acc', st)
      /\ correlationId acc' =
           (if String.eqb (toUpperCase runtime k) (CARRIER_CORRELATION_ID constants)
            then object_get o k else correlationId acc)
      /\ traceId acc' =
           (if String.eqb (toUpperCase runtime k) (CARRIER_TRACE_ID constants)
            then object_get o k else traceId acc)
      /\ transaction acc' =
           (if String.eqb (toUpperCase runtime k) (CARRIER_TRANSACTION constants)
            then object_get o k else transaction acc)
      /\ level acc' =
           (if String.eqb (toUpperCase runtime k) (CARRIER_LEVEL constants)
            then object_get o k else level acc)).
    { unfold scan_key.
      destruct (String.eqb (toUpperCase runtime k) (CARRIER_CORRELATION_ID constants)) eqn:E1.
      { apply String.eqb_eq in E1. rewrite E1.
        unfold bind, ret. simpl. rewrite Hl.
        eexists. split; [reflexivity|]. simpl.
        rewrite !(proj2 (String.eqb_neq _ _)) by congruence. done. }
      destruct (String.eqb (toUpperCase runtime k) (CARRIER_TRACE_ID constants)) eqn:E2.
      { apply String.eqb_eq in E2. rewrite E2.
        unfold bind, ret. simpl. rewrite Hl.
        eexists. split; [reflexivity|]. simpl.
        rewrite !(proj2 (String.eqb_neq _ _)) by congruence. done. }
      destruct (String.eqb (toUpperCase runtime k) (CARRIER_TRANSACTION constants)) eqn:E3.
      { apply String.eqb_eq in E3. rewrite E3.
        unfold bind, ret. simpl. rewrite Hl.
        eexists. split; [reflexivity|]. simpl.
        rewrite !(proj2 (String.eqb_neq _ _)) by congruence. done. }
      destruct (String.eqb (toUpperCase runtime k) (CARRIER_LEVEL constants)) eqn:E4.
      { unfold bind, ret. simpl. rewrite Hl.
        eexists. split; [reflexivity|]. done. }
      eexists. split; [reflexivity|]. done. }
    destruct Hstep as (acc' & -> & Hc' & Ht' & Hx' & Hv').
    destruct (IH acc') as (found & -> & Hc & Ht & Hx & Hv).
    exists found. split; [reflexivity|].
    rewrite !last_filter_cons. rewrite <- Hc', <- Ht', <- Hx', <- Hv'. done.
Qed.

(** [extract] on a recognized format and an object carrier: the carrier
    is only read, one identifier is consumed and one context is created. *)
Lemma extract_recognized_run constants Constants utils runtime format l o (st : store) :
  format = FORMAT_HTTP_HEADERS Constants \/ format = FORMAT_TEXT_MAP Constants ->
  distinct_keys constants ->
  objs st !! l = Some o ->
  extract constants Constants utils runtime format (VObj l) st =
    (Normal (fresh (dom (ctxs st))),
     {| objs := objs st;
        ctxs :=
          <[fresh (dom (ctxs st)) :=
              {| ctx_id := id_sequence utils (issued st);
                 ctx_traceId :=
                   default VUndefined
                     (object_get o <$> last (List.filter
                        (fun k => String.eqb (toUpperCase runtime k) (CARRIER_TRACE_ID constants))
                        (own_keys o)));
                 ctx_parentId := VUndefined;
                 ctx_transaction :=
                   default VUndefined
                     (object_get o <$> last (List.filter
                        (fun k => String.eqb (toUpperCase runtime k) (CARRIER_TRANSACTION constants))
                        (own_keys o)));
                 ctx_level :=
                   default VUndefined
                     (object_get o <$> last (List.filter
                        (fun k => String.eqb (toUpperCase runtime k) (CARRIER_LEVEL constants))
                        (own_keys o)));
                 ctx_consumerCorrelationId :=
                   default VNull
                     (object_get o <$> last (List.filter
                        (fun k => String.eqb (toUpperCase runtime k)
                                    (CARRIER_CORRELATION_ID constants))
                        (own_keys o)));
                 ctx_trace := None |}]> (ctxs st);
        spans := spans st; traces := traces st; console := console st;
        issued := S (issued st) |}).
Proof.
  intros Hf Hk Hl. unfold extract.
  rewrite (http_or_text_map_true _ _ Hf).
  unfold _extractHttpAndTextMap.
  unfold bind at 1. simpl. rewrite Hl.
  unfold bind at 1.
  destruct (forEach_scan_key constants runtime l o (own_keys o)
              {| correlationId := VNull; traceId := VUndefined;
                 level := VUndefined; transaction := VUndefined |} st Hk Hl)
    as (found & -> & Hc & Ht & Hx & Hv).
  simpl in Hc, Ht, Hx, Hv.
  unfold bind, generateSpanId, new_APMSpanContext, setConsumerCorrelationId, ret.
  simpl. rewrite lookup_insert_eq. simpl.
  unfold with_ctxs. simpl. rewrite insert_insert_eq.
  unfold set_consumer. simpl. rewrite Hc, Ht, Hx, Hv. reflexivity.
Qed.

(** *** The loop against the spec's reading *)

Lemma recovered_by_upper_case runtime name o :
  toUpperCase runtime name = name ->
  spec_recovered runtime name o =
    object_get o <$> last (List.filter
      (fun k => String.eqb (toUpperCase runtime k) name) (own_keys o)).
Proof.
  intros Hcap. unfold spec_recovered, eq_ignore_case.
  rewrite (List.filter_ext _ (fun k => String.eqb (toUpperCase runtime k) name)); [done|].
  intros k. by rewrite Hcap.
Qed.

Lemma own_lookup_key k v ps : own_lookup k ps = Some v -> In k (map fst ps).
Proof.
  induction ps as [|[k0 v0] ps IH]; simpl; [done|].
  destruct (String.eqb k0 k) eqn:E.
  - apply String.eqb_eq in E. by left.
  - intros H. right. by apply IH.
Qed.

Lemma own_assign_keys_present k v v0 ps :
  own_lookup k ps = Some v0 -> map fst (own_assign k v ps) = map fst ps.
Proof.
  induction ps as [|[k1 v1] ps IH]; simpl; [done|].
  destruct (String.eqb k1 k) eqn:E; simpl.
  - apply String.eqb_eq in E. by subst.
  - intros H. by rewrite IH.
Qed.

Lemma filter_none (p : string -> bool) ks :
  (forall k, In k ks -> p k = false) -> List.filter p ks = [].
Proof.
  induction ks as [|k ks IH]; simpl; [done|].
  intros H. rewrite (H k) by (by left). apply IH. intros k' Hk'. apply H. by right.
Qed.

Lemma recovered_absent runtime name o :
  (forall k, In k (own_keys o) -> eq_ignore_case runtime k name = false) ->
  spec_recovered runtime name o = None.
Proof. intros H. unfold spec_recovered. by rewrite filter_none. Qed.

Lemma recovered_single_spelling runtime name o k v :
  own_lookup k (own o) = Some v ->
  eq_ignore_case runtime k name = true ->
  (forall k', In k' (own_keys o) -> eq_ignore_case runtime k' name = true -> k' = k) ->
  spec_recovered runtime name o = Some v.
Proof.
  intros Hv Hk Honly. unfold spec_recovered.
  assert (Hin : In k (List.filter (fun k => eq_ignore_case runtime k name) (own_keys o))).
  { apply filter_In. split; [|done]. by apply own_lookup_key with v. }
  destruct (last _) as [k'|] eqn:El.
  - apply last_Some_elem_of, list_elem_of_In, filter_In in El as [Hin' Hp'].
    rewrite (Honly k' Hin' Hp'). simpl. unfold object_get. by rewrite Hv.
  - apply last_None in El. rewrite El in Hin. destruct Hin.
Qed.

Lemma recovered_ignores_other_key runtime name o k v :
  eq_ignore_case runtime k name = false ->
  spec_recovered runtime name (object_set k v o) = spec_recovered runtime name o.
Proof.
  intros Hk. unfold spec_recovered.
  assert (Hf : List.filter (fun k => eq_ignore_case runtime k name) (own_keys (object_set k v o))
               = List.filter (fun k => eq_ignore_case runtime k name) (own_keys o)).
  { unfold own_keys, object_set. simpl.
    destruct (own_lookup k (own o)) as [v0|] eqn:E.
    - by rewrite (own_assign_keys_present _ _ _ _ E).
    - rewrite (own_assign_absent _ _ _ E), map_app, List.filter_app. simpl.
      rewrite Hk. apply app_nil_r. }
  rewrite Hf. destruct (last _) as [k'|] eqn:El; [|done]. simpl. f_equal.
  apply last_Some_elem_of, list_elem_of_In, filter_In in El as [_ Hp'].
  apply object_get_set_ne. intros ->. congruence.
Qed.

Lemma capital_keys_eq runtime K :
  capital_keys runtime K ->
  toUpperCase runtime (CARRIER_TRACE_ID K) = CARRIER_TRACE_ID K
  /\ toUpperCase runtime (CARRIER_CORRELATION_ID K) = CARRIER_CORRELATION_ID K
  /\ toUpperCase runtime (CARRIER_TRANSACTION K) = CARRIER_TRANSACTION K
  /\ toUpperCase runtime (CARRIER_LEVEL K) = CARRIER_LEVEL K.
Proof.
  unfold capital_keys, carrier_keys. rewrite !Forall_cons. tauto.
Qed.

(** C3: for both recognized formats and every carrier [o] that is an
    object, [extract] returns a new context whose span id is a fresh
    identifier and whose trace id, consumer correlation id, transaction
    and level are the values recovered from the carrier by matching its
    keys against the four names regardless of letter case, that is, up to
    the built-in [toUpperCase].  A name that no key spells leaves its
    field undefined (the consumer correlation id is then [null]); a name
    spelled by a single key, in whatever letter case, yields the value
    under that key, in particular for a key of ASCII characters whose
    letters a-z, put in capitals, give the name; and a key that spells
    none of the four names has no influence on the result.  The carrier
    itself is only read. *)
Theorem extract_matches_keys_ignoring_case
    constants Constants utils runtime format l o (st : store) :
  format = FORMAT_HTTP_HEADERS Constants \/ format = FORMAT_TEXT_MAP Constants ->
  distinct_keys constants ->
  capital_keys runtime constants ->
  objs st !! l = Some o ->
  exists c y st',
    extract constants Constants utils runtime format (VObj l) st = (Normal c, st')
    /\ ctxs st !! c = None
    /\ ctxs st' !! c = Some y
    /\ objs st' = objs st
    /\ issued st' = S (issued st)
    /\ y = {| ctx_id := id_sequence utils (issued st);
              ctx_traceId :=
                default VUndefined (spec_recovered runtime (CARRIER_TRACE_ID constants) o);
              ctx_parentId := VUndefined;
              ctx_transaction :=
                default VUndefined (spec_recovered runtime (CARRIER_TRANSACTION constants) o);
              ctx_level :=
                default VUndefined (spec_recovered runtime (CARRIER_LEVEL constants) o);
              ctx_consumerCorrelationId :=
                default VNull (spec_recovered runtime (CARRIER_CORRELATION_ID constants) o);
              ctx_trace := None |}
    /\ (forall name field,
          (name, field) ∈ [ (CARRIER_TRACE_ID constants, ctx_traceId y);
                            (CARRIER_CORRELATION_ID constants,
                             ctx_consumerCorrelationId y);
                            (CARRIER_TRANSACTION constants, ctx_transaction y);
                            (CARRIER_LEVEL constants, ctx_level y) ] ->
          forall k v,
            own_lookup k (own o) = Some v ->
            eq_ignore_case runtime k name = true ->
            (forall k', In k' (own_keys o) -> eq_ignore_case runtime k' name = true -> k' = k) ->
            field = v)
    /\ (forall name field,
          (name, field) ∈ [ (CARRIER_TRACE_ID constants, ctx_traceId y);
                            (CARRIER_TRANSACTION constants, ctx_transaction y);
                            (CARRIER_LEVEL constants, ctx_level y) ] ->
          (forall k, In k (own_keys o) -> eq_ignore_case runtime k name = false) ->
          field = VUndefined)
    /\ ((forall k, In k (own_keys o) ->
           eq_ignore_case runtime k (CARRIER_CORRELATION_ID constants) = false) ->
        ctx_consumerCorrelationId y = VNull)
    /\ (forall k v,
          (forall name, In name (carrier_keys constants) ->
             eq_ignore_case runtime k name = false) ->
          exists st'',
            extract constants Constants utils runtime format (VObj l)
              (with_objs (insert l (object_set k v o)) st) = (Normal c, st'')
            /\ ctxs st'' !! c = Some y)
    /\ (folds_ascii runtime ->
        forall name field,
          (name, field) ∈ [ (CARRIER_TRACE_ID constants, ctx_traceId y);
                            (CARRIER_CORRELATION_ID constants,
                             ctx_consumerCorrelationId y);
                            (CARRIER_TRANSACTION constants, ctx_transaction y);
                            (CARRIER_LEVEL constants, ctx_level y) ] ->
          forall k v,
            is_ascii k = true ->
            ascii_toUpperCase k = name ->
            own_lookup k (own o) = Some v ->
            (forall k', In k' (own_keys o) ->
               eq_ignore_case runtime k' name = true -> k' = k) ->
            field = v).
Proof.
  intros Hf Hk Hcap Hl.
  destruct (capital_keys_eq _ _ Hcap) as (Ut & Uc & Ux & Uv).
  eexists _, _, _. split.
  { rewrite (extract_recognized_run _ _ _ _ _ _ _ _ Hf Hk Hl).
    rewrite <- !recovered_by_upper_case by assumption. reflexivity. }
  simpl.
  split; [apply not_elem_of_dom, is_fresh|].
  split; [apply lookup_insert_eq|].
  split; [done|]. split; [done|]. split; [done|].
  split.
  { intros name field Hin k v Hv Hcase Honly.
    rewrite !elem_of_cons, elem_of_nil in Hin.
    destruct Hin as [[= -> ->]|[[= -> ->]|[[= -> ->]|[[= -> ->]|[]]]]];
      by rewrite (recovered_single_spelling _ _ _ _ _ Hv Hcase Honly). }
  split.
  { intros name field Hin Habs.
    rewrite !elem_of_cons, elem_of_nil in Hin.
    destruct Hin as [[= -> ->]|[[= -> ->]|[[= -> ->]|[]]]];
      by rewrite (recovered_absent _ _ _ Habs). }
  split.
  { intros Habs. by rewrite (recovered_absent _ _ _ Habs). }
  split.
  { intros k v Hother.
    assert (Hl' : objs (with_objs (insert l (object_set k v o)) st) !! l
                  = Some (object_set k v o)) by apply lookup_insert_eq.
    eexists. split.
    { rewrite (extract_recognized_run _ _ _ _ _ _ _ _ Hf Hk Hl').
      rewrite <- !recovered_by_upper_case by assumption.
      rewrite !recovered_ignores_other_key
        by (apply Hother; unfold carrier_keys; simpl; tauto).
      reflexivity. }
    simpl. apply lookup_insert_eq. }
  intros Hfold name field Hin k v Hascii Hupper Hv Honly.
  assert (Hcase : eq_ignore_case runtime k name = true).
  { unfold eq_ignore_case. rewrite (Hfold k Hascii), Hupper.
    rewrite !elem_of_cons, elem_of_nil in Hin.
    destruct Hin as [[= -> ->]|[[= -> ->]|[[= -> ->]|[[= -> ->]|[]]]]];
      rewrite ?Ut, ?Uc, ?Ux, ?Uv; apply String.eqb_refl. }
  rewrite !elem_of_cons, elem_of_nil in Hin.
  destruct Hin as [[= -> ->]|[[= -> ->]|[[= -> ->]|[[= -> ->]|[]]]]];
    by rewrite (recovered_single_spelling _ _ _ _ _ Hv Hcase Honly).
Qed.

(** ** Round trip *)

(** C2, as the code has it: for both recognized formats and every
    context [x], extracting from a carrier that was a fresh empty object
    before [inject] filled it yields a context with the trace id of [x],
    with the transaction and the level of [x] when these are truthy and
    undefined otherwise, and whose consumer correlation id is the
    correlation id that this [inject] call minted and wrote to the
    carrier, not the id of [x]. *)
Theorem round_trip_recovers_trace_id_and_truthy_fields
    constants Constants utils runtime format c x l (st : store) :
  format = FORMAT_HTTP_HEADERS Constants \/ format = FORMAT_TEXT_MAP Constants ->
  distinct_keys constants ->
  capital_keys runtime constants ->
  unique_ids utils ->
  ctxs st !! c = Some x ->
  objs st !! l = Some empty_object ->
  exists o1 c' y st2,
    objs (inject constants Constants utils (AContext c) format (VObj l) st).2 !! l
      = Some o1
    /\ extract constants Constants utils runtime format (VObj l)
         (inject constants Constants utils (AContext c) format (VObj l) st).2
       = (Normal c', st2)
    /\ ctxs st2 !! c' = Some y
    /\ ctx_traceId y = ctx_traceId x
    /\ ctx_transaction y
       = (if truthy (ctx_transaction x) then ctx_transaction x else VUndefined)
    /\ ctx_level y = (if truthy (ctx_level x) then ctx_level x else VUndefined)
    /\ ctx_consumerCorrelationId y = id_sequence utils (issued st)
    /\ ctx_consumerCorrelationId y = object_get o1 (CARRIER_CORRELATION_ID constants)
    /\ (forall j, j < issued st -> ctx_id x = id_sequence utils j ->
          ctx_consumerCorrelationId y <> ctx_id x).
Proof.
  intros Hf Hk Hcap Hu Hc Hl.
  destruct (distinct_keys_ne _ Hk) as (Htc & Htx & Htl & Hcx & Hcl & Hxl).
  destruct (capital_keys_eq _ _ Hcap) as (Ut & Uc & Ux & Uv).
  destruct (inject_recognized_run constants Constants utils format c x l empty_object
              st Hf Hc Hl) as (r1 & tr1 & ->).
  simpl. eexists _, _, _, _.
  split; [apply lookup_insert_eq|].
  split.
  { apply extract_recognized_run; [done|done|]. simpl. apply lookup_insert_eq. }
  simpl. split; [apply lookup_insert_eq|]. simpl.
  assert (Hfresh : forall j, j < issued st -> ctx_id x = id_sequence utils j ->
            id_sequence utils (issued st) <> ctx_id x).
  { intros j Hj Hid E. rewrite Hid in E. apply Hu in E. lia. }
  destruct (truthy (ctx_transaction x)), (truthy (ctx_level x));
    unfold own_keys, object_get, object_set, empty_object; simpl;
    repeat (first [ rewrite String.eqb_refl
                  | rewrite Ut | rewrite Uc | rewrite Ux | rewrite Uv
                  | rewrite (proj2 (String.eqb_neq _ _)) by congruence ]; simpl);
    done.
Qed.

(** C2, as stated, fails on a context whose level is the empty string:
    [inject] skips the falsy level, so the extracted context has an
    undefined level, not the level of the original. *)
Lemma round_trip_loses_empty_level :
  exists c' y st2,
    extract Sample.hawkular Sample.opentracing Sample.counter Sample.ascii
      (FORMAT_TEXT_MAP Sample.opentracing) (VObj 5)
      (inject Sample.hawkular Sample.opentracing Sample.counter (AContext 0)
         (FORMAT_TEXT_MAP Sample.opentracing) (VObj 5)
         (Sample.store_with Sample.unlevelled_context empty_object)).2
    = (Normal c', st2)
    /\ ctxs st2 !! c' = Some y
    /\ ctx_traceId y = ctx_traceId Sample.unlevelled_context
    /\ ctx_level Sample.unlevelled_context = VStr ""
    /\ ctx_level y = VUndefined
    /\ ctx_level y <> ctx_level Sample.unlevelled_context.
Proof.
  eexists _, _, _. split; [vm_compute; reflexivity|].
  split; [vm_compute; reflexivity|].
  simpl. repeat split. discriminate.
Qed.

(** *** The sample parameters are well formed *)

Lemma hawkular_distinct_keys : distinct_keys Sample.hawkular.
Proof.
  unfold distinct_keys, carrier_keys. simpl.
  rewrite !NoDup_cons, !not_elem_of_cons, !elem_of_nil.
  repeat split; try apply NoDup_nil_2; intuition discriminate.
Defined.

Lemma hawkular_capital_keys : capital_keys Sample.ascii Sample.hawkular.
Proof. unfold capital_keys, carrier_keys. simpl. repeat constructor. Defined.

Lemma counter_unique_ids : unique_ids Sample.counter.
Proof. intros i j E. simpl in E. injection E as E. by apply Nat2Z.inj. Defined.

Lemma round_trip_recovers_trace_id_and_truthy_fields_witness :
  exists o1 c' y st2,
    objs (inject Sample.hawkular Sample.opentracing Sample.counter (AContext 0)
            (FORMAT_TEXT_MAP Sample.opentracing) (VObj 5)
            (Sample.store_with Sample.unlevelled_context empty_object)).2 !! 5
      = Some o1
    /\ extract Sample.hawkular Sample.opentracing Sample.counter Sample.ascii
         (FORMAT_TEXT_MAP Sample.opentracing) (VObj 5)
         (inject Sample.hawkular Sample.opentracing Sample.counter (AContext 0)
            (FORMAT_TEXT_MAP Sample.opentracing) (VObj 5)
            (Sample.store_with Sample.unlevelled_context empty_object)).2
       = (Normal c', st2)
    /\ ctxs st2 !! c' = Some y
    /\ ctx_traceId y = VNum 1
    /\ ctx_transaction y = VStr "checkout"
    /\ ctx_level y = VUndefined
    /\ ctx_consumerCorrelationId y = VNum 2
    /\ ctx_consumerCorrelationId y = object_get o1 "HWKAPMID"
    /\ (forall j, j < 2 -> VNum 0 = VNum (Z.of_nat j) ->
          ctx_consumerCorrelationId y <> VNum 0).
Proof.
  apply (round_trip_recovers_trace_id_and_truthy_fields Sample.hawkular
           Sample.opentracing Sample.counter Sample.ascii (FORMAT_TEXT_MAP Sample.opentracing)
           0 Sample.unlevelled_context 5
           (Sample.store_with Sample.unlevelled_context empty_object)).
  - right. reflexivity.
  - exact hawkular_distinct_keys.
  - exact hawkular_capital_keys.
  - exact counter_unique_ids.
  - reflexivity.
  - reflexivity.
Defined.

Lemma inject_writes_trace_id_and_fresh_correlation_id_witness :
  exists o1 o2,
    objs (inject Sample.hawkular Sample.opentracing Sample.counter (AContext 0)
            (FORMAT_HTTP_HEADERS Sample.opentracing) (VObj 5)
            (Sample.store_with Sample.unlevelled_context empty_object)).2 !! 5
      = Some o1
    /\ objs (inject Sample.hawkular Sample.opentracing Sample.counter (AContext 0)
               (FORMAT_HTTP_HEADERS Sample.opentracing) (VObj 5)
               (inject Sample.hawkular Sample.opentracing Sample.counter (AContext 0)
                  (FORMAT_HTTP_HEADERS Sample.opentracing) (VObj 5)
                  (Sample.store_with Sample.unlevelled_context empty_object)).2).2 !! 5
      = Some o2
    /\ object_get o1 "HWKAPMTRACEID" = VNum 1
    /\ object_get o1 "HWKAPMID" = VNum 2
    /\ object_get o2 "HWKAPMID" <> object_get o1 "HWKAPMID"
    /\ own_lookup "HWKAPMTXN" (own o1) = Some (VStr "checkout")
    /\ own_lookup "HWKAPMLEVEL" (own o1) = None.
Proof.
  pose proof (inject_writes_trace_id_and_fresh_correlation_id Sample.hawkular
                Sample.opentracing Sample.counter
                (FORMAT_HTTP_HEADERS Sample.opentracing)
                0 Sample.unlevelled_context 5 empty_object
                (Sample.store_with Sample.unlevelled_context empty_object)
                (or_introl eq_refl) hawkular_distinct_keys counter_unique_ids
                eq_refl eq_refl) as H.
  cbv zeta in H.
  destruct H as (o1 & o2 & H1 & H2 & H3 & _ & H5 & _ & _ & H8 & H9 & H10 & _).
  exists o1, o2. repeat split; assumption.
Defined.

Lemma ascii_folds_ascii : folds_ascii Sample.ascii.
Proof. intros s _. reflexivity. Defined.

Lemma extract_matches_keys_ignoring_case_witness :
  exists c y st',
    extract Sample.hawkular Sample.opentracing Sample.counter Sample.ascii
      (FORMAT_HTTP_HEADERS Sample.opentracing) (VObj 5)
      (Sample.store_with Sample.checkout_context Sample.mixed_case_carrier)
    = (Normal c, st')
    /\ ctxs st' !! c = Some y
    /\ y = {| ctx_id := VNum 2; ctx_traceId := VStr "t2"; ctx_parentId := VUndefined;
              ctx_transaction := VUndefined; ctx_level := VUndefined;
              ctx_consumerCorrelationId := VStr "c1"; ctx_trace := None |}
    /\ ctx_consumerCorrelationId y = VStr "c1".
Proof.
  destruct (extract_matches_keys_ignoring_case Sample.hawkular Sample.opentracing
              Sample.counter Sample.ascii (FORMAT_HTTP_HEADERS Sample.opentracing)
              5 Sample.mixed_case_carrier
              (Sample.store_with Sample.checkout_context Sample.mixed_case_carrier)
              (or_introl eq_refl) hawkular_distinct_keys hawkular_capital_keys
              eq_refl)
    as (c & y & st' & Hrun & _ & Hy & _ & _ & Hfields & _ & _ & _ & _ & Hascii).
  exists c, y, st'. split; [exact Hrun|]. split; [exact Hy|]. split; [exact Hfields|].
  apply (Hascii ascii_folds_ascii "HWKAPMID" (ctx_consumerCorrelationId y))
    with (k := "HwkApmId"); try reflexivity.
  - rewrite !elem_of_cons. right. left. reflexivity.
  - intros k' Hin Hcase. simpl in Hin.
    destruct Hin as [<-|[<-|[<-|[<-|[]]]]]; first [reflexivity | discriminate].
Defined.

(** ** The trace decorator *)

Lemma hasOwnProperty_set_other k k' v o :
  hasOwnProperty o k = true -> hasOwnProperty (object_set k' v o) k = true.
Proof.
  unfold hasOwnProperty, object_set. simpl. intros H.
  destruct (String.eqb k' k) eqn:E.
  - apply String.eqb_eq in E. subst. by rewrite own_lookup_assign_eq.
  - apply String.eqb_neq in E. by rewrite own_lookup_assign_ne.
Qed.

Lemma tag_if_missing_keeps k k' v o :
  hasOwnProperty o k' = true -> hasOwnProperty (tag_if_missing k v o) k' = true.
Proof.
  intros H. unfold tag_if_missing.
  destruct (truthy v && negb (hasOwnProperty o k)); [|done].
  by apply hasOwnProperty_set_other.
Qed.

Lemma tag_if_missing_present k v o :
  truthy v = false \/ hasOwnProperty o k = true -> tag_if_missing k v o = o.
Proof. unfold tag_if_missing. by intros [-> | ->]; rewrite ?andb_false_r. Qed.

Lemma tag_if_missing_settles k v o :
  truthy v = false \/ hasOwnProperty (tag_if_missing k v o) k = true.
Proof.
  unfold tag_if_missing.
  destruct (truthy v); [right|by left]. simpl.
  destruct (hasOwnProperty o k) eqn:E; simpl; [done|].
  apply hasOwnProperty_set_eq.
Qed.

Lemma decorated_tags_stable ks vs kb vb o :
  tag_if_missing kb vb
    (tag_if_missing ks vs (tag_if_missing kb vb (tag_if_missing ks vs o)))
  = tag_if_missing kb vb (tag_if_missing ks vs o).
Proof.
  rewrite (tag_if_missing_present ks vs (tag_if_missing kb vb _)).
  - apply tag_if_missing_present, tag_if_missing_settles.
  - destruct (tag_if_missing_settles ks vs o) as [H|H]; [by left|right].
    by apply tag_if_missing_keeps.
Qed.

(** The decorator on a trace whose root node has a span with a tag map
    [o]: the tag map is the only thing that may change. *)
Lemma decorator_run constants md t tr n ns s sp o (st : store) :
  traces st !! t = Some tr ->
  nodes tr = n :: ns ->
  node_span n = Some s ->
  spans st !! s = Some sp ->
  objs st !! span_tags sp = Some o ->
  TRACE_DECORATOR constants md t st =
    (Normal tt,
     with_objs (insert (span_tags sp)
       (tag_if_missing (PROP_BUILD_STAMP constants) (buildStamp md)
          (tag_if_missing (PROP_SERVICE_NAME constants) (serviceName md) o))) st).
Proof.
  intros Ht Hn Hs Hsp Ho.
  assert (Hid : forall o0, objs st !! span_tags sp = Some o0 ->
            st = with_objs (insert (span_tags sp) o0) st).
  { intros o0 H0. destruct st. unfold with_objs. simpl in *. by rewrite insert_id. }
  unfold TRACE_DECORATOR, trace_nodes, tag_if_missing.
  unfold bind at 1. rewrite Ht, Hn, Hs.
  unfold and_then, when, setTag, getTags, span_field, ret, bind.
  destruct (truthy (serviceName md)); simpl;
    repeat (first [rewrite Hsp | rewrite Ho | rewrite lookup_insert_eq]; simpl);
    destruct (hasOwnProperty o (PROP_SERVICE_NAME constants)); simpl;
    repeat (first [rewrite Hsp | rewrite Ho | rewrite lookup_insert_eq]; simpl);
    destruct (truthy (buildStamp md)); simpl;
    repeat (first [rewrite Hsp | rewrite Ho | rewrite lookup_insert_eq]; simpl);
    try (destruct (hasOwnProperty _ (PROP_BUILD_STAMP constants)); simpl);
    repeat (first [rewrite Hsp | rewrite Ho | rewrite lookup_insert_eq]; simpl);
    unfold with_objs; simpl; rewrite ?insert_insert_eq;
    first [ reflexivity | f_equal; by apply Hid ].
Qed.

Lemma bind_same_store {A} (m : M A) r (st : store) :
  m st = (r, st) -> (m;; m) st = m st.
Proof. intros H. unfold bind. rewrite H. by destruct r. Qed.

(** When the root span or its tag map cannot be reached the decorator
    fails, or does nothing, without writing. *)
Lemma decorator_unreachable_tags constants md t tr n ns s (st : store) :
  traces st !! t = Some tr ->
  nodes tr = n :: ns ->
  node_span n = Some s ->
  (spans st !! s = None
   \/ exists sp, spans st !! s = Some sp /\ objs st !! span_tags sp = None) ->
  exists r, TRACE_DECORATOR constants md t st = (r, st).
Proof.
  intros Ht Hn Hs Hbad.
  unfold TRACE_DECORATOR, trace_nodes.
  unfold bind at 1. rewrite Ht, Hn, Hs.
  unfold and_then, when, setTag, getTags, span_field, ret, bind.
  destruct Hbad as [Hsp | (sp & Hsp & Ho)];
    destruct (truthy (serviceName md)); simpl;
    repeat (first [rewrite Hsp | rewrite Ho]; simpl);
    destruct (truthy (buildStamp md)); simpl;
    repeat (first [rewrite Hsp | rewrite Ho]; simpl);
    by eexists.
Qed.

(** Decorating twice is decorating once. *)
Lemma decorator_twice constants md t (st : store) :
  (TRACE_DECORATOR constants md t;; TRACE_DECORATOR constants md t) st
  = TRACE_DECORATOR constants md t st.
Proof.
  destruct (traces st !! t) as [tr|] eqn:Ht.
  2: { apply bind_same_store with (Throw TypeError).
       unfold TRACE_DECORATOR, trace_nodes, bind. by rewrite Ht. }
  destruct (nodes tr) as [|n ns] eqn:Hn.
  { apply bind_same_store with (Normal tt).
    unfold TRACE_DECORATOR, trace_nodes, bind. by rewrite Ht, Hn. }
  destruct (node_span n) as [s|] eqn:Hs.
  2: { apply bind_same_store with (Normal tt).
       unfold TRACE_DECORATOR, trace_nodes, bind. by rewrite Ht, Hn, Hs. }
  destruct (spans st !! s) as [sp|] eqn:Hsp.
  2: { destruct (decorator_unreachable_tags constants md t tr n ns s st Ht Hn Hs)
         as [r Hr]; [by left|]. by apply bind_same_store with r. }
  destruct (objs st !! span_tags sp) as [o|] eqn:Ho.
  2: { destruct (decorator_unreachable_tags constants md t tr n ns s st Ht Hn Hs)
         as [r Hr]; [right; by exists sp|]. by apply bind_same_store with r. }
  unfold bind at 1.
  rewrite (decorator_run constants md t tr n ns s sp o st Ht Hn Hs Hsp Ho).
  erewrite (decorator_run constants md t tr n ns s sp); try eassumption;
    [|apply lookup_insert_eq].
  f_equal. unfold with_objs. simpl. rewrite insert_insert_eq. do 2 f_equal.
  apply decorated_tags_stable.
Qed.

Lemma tag_if_missing_keeps_own k v o k' v' :
  own_lookup k' (own o) = Some v' ->
  own_lookup k' (own (tag_if_missing k v o)) = Some v'.
Proof.
  intros H. unfold tag_if_missing, hasOwnProperty.
  destruct (String.eqb k k') eqn:E.
  - apply String.eqb_eq in E. subst k'. rewrite H. by rewrite andb_false_r.
  - apply String.eqb_neq in E.
    destruct (truthy v && _); [|done]. simpl. by rewrite own_lookup_assign_ne.
Qed.

Lemma tag_if_missing_new_own k v o k' :
  own_lookup k' (own o) = None ->
  own_lookup k' (own (tag_if_missing k v o)) = None
  \/ (k' = k /\ truthy v = true /\ own_lookup k' (own (tag_if_missing k v o)) = Some v).
Proof.
  intros H. unfold tag_if_missing, hasOwnProperty.
  destruct (String.eqb k k') eqn:E.
  - apply String.eqb_eq in E. subst k'. rewrite H.
    destruct (truthy v); simpl; [|by left].
    right. by rewrite own_lookup_assign_eq.
  - apply String.eqb_neq in E. left.
    destruct (truthy v && _); [|done]. simpl. by rewrite own_lookup_assign_ne.
Qed.

Lemma tag_if_missing_sets k v o :
  truthy v = true -> hasOwnProperty o k = false ->
  own_lookup k (own (tag_if_missing k v o)) = Some v.
Proof.
  intros Hv Ho. unfold tag_if_missing. rewrite Hv, Ho. simpl.
  apply own_lookup_assign_eq.
Qed.

Lemma tag_if_missing_inherited k v o :
  inherited (tag_if_missing k v o) = inherited o.
Proof. unfold tag_if_missing. by destruct (truthy v && _). Qed.

(** C7: the decorator reads the first node of the trace only.  It
    returns without effect when the trace has no node or the root node has
    no span.  Otherwise the tag map of the root span is the only object
    that may change: every tag that was an own property keeps its value,
    the only keys that may appear are the service-name and build-stamp
    tags, with the values of the metadata, when that value is truthy and
    the key was not an own property (a key seen only through the prototype
    counts as missing); the node list, the spans and all other objects are
    as before.  Decorating twice gives what decorating once gives. *)
Theorem trace_decorator_tags_root_span_once constants md t tr (st : store) :
  traces st !! t = Some tr ->
  (TRACE_DECORATOR constants md t;; TRACE_DECORATOR constants md t) st
    = TRACE_DECORATOR constants md t st
  /\ (nodes tr = [] -> TRACE_DECORATOR constants md t st = (Normal tt, st))
  /\ (forall n ns, nodes tr = n :: ns -> node_span n = None ->
        TRACE_DECORATOR constants md t st = (Normal tt, st))
  /\ (forall n ns s sp o,
        nodes tr = n :: ns -> node_span n = Some s ->
        spans st !! s = Some sp -> objs st !! span_tags sp = Some o ->
        exists o' st',
          TRACE_DECORATOR constants md t st = (Normal tt, st')
          /\ objs st' = <[span_tags sp := o']> (objs st)
          /\ traces st' = traces st
          /\ spans st' = spans st
          /\ ctxs st' = ctxs st
          /\ console st' = console st
          /\ issued st' = issued st
          /\ inherited o' = inherited o
          /\ (forall k v, own_lookup k (own o) = Some v ->
                own_lookup k (own o') = Some v)
          /\ (forall k, own_lookup k (own o) = None ->
                own_lookup k (own o') = None
                \/ (k = PROP_SERVICE_NAME constants
                    /\ truthy (serviceName md) = true
                    /\ own_lookup k (own o') = Some (serviceName md))
                \/ (k = PROP_BUILD_STAMP constants
                    /\ truthy (buildStamp md) = true
                    /\ own_lookup k (own o') = Some (buildStamp md)))
          /\ (truthy (serviceName md) = true ->
              hasOwnProperty o (PROP_SERVICE_NAME constants) = false ->
              own_lookup (PROP_SERVICE_NAME constants) (own o')
                = Some (serviceName md))
          /\ (truthy (buildStamp md) = true ->
              hasOwnProperty o (PROP_BUILD_STAMP constants) = false ->
              PROP_BUILD_STAMP constants <> PROP_SERVICE_NAME constants ->
              own_lookup (PROP_BUILD_STAMP constants) (own o')
                = Some (buildStamp md))).
Proof.
  intros Ht. split; [apply decorator_twice|].
  split.
  { intros Hn. unfold TRACE_DECORATOR, trace_nodes, bind. by rewrite Ht, Hn. }
  split.
  { intros n ns Hn Hs. unfold TRACE_DECORATOR, trace_nodes, bind.
    by rewrite Ht, Hn, Hs. }
  intros n ns s sp o Hn Hs Hsp Ho.
  eexists _, _. split; [by apply (decorator_run constants md t tr n ns s sp o)|].
  simpl. repeat (split; [reflexivity|]).
  split; [by rewrite !tag_if_missing_inherited|].
  split.
  { intros k v Hv. by do 2 apply tag_if_missing_keeps_own. }
  split.
  { intros k Hnone.
    destruct (tag_if_missing_new_own (PROP_SERVICE_NAME constants) (serviceName md)
                o k Hnone) as [H1 | (-> & Htr & H1)].
    - destruct (tag_if_missing_new_own (PROP_BUILD_STAMP constants) (buildStamp md)
                  _ k H1) as [H2 | (-> & Htr & H2)]; [by left|].
      right. right. done.
    - right. left. repeat split; [done|]. by apply tag_if_missing_keeps_own. }
  split.
  { intros Hv Hmiss. apply tag_if_missing_keeps_own. by apply tag_if_missing_sets. }
  intros Hv Hmiss Hne. apply tag_if_missing_sets; [done|].
  unfold tag_if_missing.
  destruct (truthy (serviceName md) && _); [|done].
  unfold hasOwnProperty in *. simpl.
  rewrite own_lookup_assign_ne by congruence. done.
Qed.

Lemma trace_decorator_tags_root_span_once_witness :
  exists o' st',
    TRACE_DECORATOR Sample.hawkular Sample.other_service 0 Sample.tagged_store
      = (Normal tt, st')
    /\ objs st' !! 7 = Some o'
    /\ own_lookup "service" (own o') = Some (VStr "checkout")
    /\ own_lookup "buildStamp" (own o') = Some (VStr "123")
    /\ (TRACE_DECORATOR Sample.hawkular Sample.other_service 0;;
        TRACE_DECORATOR Sample.hawkular Sample.other_service 0) Sample.tagged_store
       = (Normal tt, st').
Proof.
  destruct (trace_decorator_tags_root_span_once Sample.hawkular Sample.other_service
              0 {| nodes := [ {| node_span := Some 3; node_type := VUndefined;
                                 node_context := Some 0;
                                 node_correlation := None |} ] |}
              Sample.tagged_store eq_refl) as (Htwice & _ & _ & Hroot).
  destruct (Hroot _ [] 3 {| span_operationName := VStr "A"; span_tags := 7;
                            span_context := 0 |}
              {| own := [("service", VStr "checkout")];
                 inherited := [("buildStamp", VStr "old")] |}
              eq_refl eq_refl eq_refl eq_refl)
    as (o' & st' & Hrun & Hobjs & _ & _ & _ & _ & _ & _ & Hkeep & _ & _ & Hbuild).
  exists o', st'. split; [exact Hrun|].
  split; [rewrite Hobjs; apply lookup_insert_eq|].
  split; [by apply Hkeep|].
  split; [apply Hbuild; first [reflexivity | discriminate]|].
  rewrite Htwice. exact Hrun.
Defined.

(** ** Starting a span *)

(** C10: [startSpan(name, fields)] with [fields] an object writes [name]
    to the [operationName] property of that very object before the span
    is constructed from it: after the call the caller's object holds
    [name] there, whatever it held before, and each of its other
    properties is as it was; no other object that existed before the call
    is changed, and the span is built with [name]. *)
Theorem startSpan_overwrites_operation_name_in_fields utils name l o (st : store) :
  objs st !! l = Some o ->
  exists s sp st',
    startSpan utils name (VObj l) st = (Normal s, st')
    /\ objs st' !! l = Some (object_set "operationName" name o)
    /\ object_get (object_set "operationName" name o) "operationName" = name
    /\ (forall k, k <> "operationName" ->
          own_lookup k (own (object_set "operationName" name o))
          = own_lookup k (own o))
    /\ inherited (object_set "operationName" name o) = inherited o
    /\ (forall l', l' <> l -> is_Some (objs st !! l') ->
          objs st' !! l' = objs st !! l')
    /\ spans st' !! s = Some sp
    /\ span_operationName sp = name.
Proof.
  intros Hl.
  assert (Hfresh : forall m : gmap loc object, is_Some (m !! l) -> fresh (dom m) <> l).
  { intros m Hm E. apply elem_of_dom in Hm. rewrite <- E in Hm.
    by apply is_fresh in Hm. }
  assert (Hfresh' : forall (m : gmap loc object) l', is_Some (m !! l') ->
            fresh (dom m) <> l').
  { intros m l' Hm E. apply elem_of_dom in Hm. rewrite <- E in Hm.
    by apply is_fresh in Hm. }
  unfold startSpan. simpl.
  unfold new_APMSpan, generateSpanId, new_APMSpanContext, new_object, ret, bind.
  simpl. rewrite Hl. simpl. repeat (rewrite lookup_insert_eq; simpl).
  rewrite object_get_set_eq.
  destruct (object_get (object_set "operationName" name o) "tags") as [| | | | |l2];
    simpl; eexists _, _, _; (split; [reflexivity|]); simpl.
  1-5: split;
    [ rewrite lookup_insert_ne, lookup_insert_eq;
        [done | apply Hfresh; rewrite lookup_insert_eq; by eexists] |].
  6: split; [apply lookup_insert_eq|].
  all: split; [reflexivity|].
  all: split; [intros k Hk; apply own_lookup_assign_ne; congruence|].
  all: split; [reflexivity|].
  all: split; [|split; [apply lookup_insert_eq|reflexivity]].
  6: { intros l' Hne _. by rewrite lookup_insert_ne. }
  all: intros l' Hne Hsome;
    rewrite lookup_insert_ne, lookup_insert_ne; [done|done|];
    apply Hfresh'; rewrite lookup_insert_ne; done.
Qed.

Lemma startSpan_overwrites_operation_name_in_fields_witness :
  exists s sp st',
    startSpan Sample.counter (VStr "A") (VObj 4) Sample.fields_store = (Normal s, st')
    /\ objs st' !! 4 =
         Some {| own := [("operationName", VStr "A"); ("startTime", VNum 7)];
                 inherited := [] |}
    /\ spans st' !! s = Some sp
    /\ span_operationName sp = VStr "A".
Proof.
  destruct (startSpan_overwrites_operation_name_in_fields Sample.counter (VStr "A") 4
              {| own := [("operationName", VStr "B"); ("startTime", VNum 7)];
                 inherited := [] |}
              Sample.fields_store eq_refl)
    as (s & sp & st' & Hrun & Hfields & _ & _ & _ & _ & Hsp & Hname).
  exists s, sp, st'. repeat split; assumption.
Defined.

(** C9, as stated, fails on [startSpan("A", {operationName: "B",
    startTime: 7})]: the span is constructed with operation name "A", not
    with the "B" that the caller supplied in [fields], which is
    overwritten before the constructor reads it. *)
Theorem startSpan_ignores_supplied_operation_name :
  exists s sp st',
    object_get {| own := [("operationName", VStr "B"); ("startTime", VNum 7)];
                  inherited := [] |} "operationName" = VStr "B"
    /\ objs Sample.fields_store !! 4 =
         Some {| own := [("operationName", VStr "B"); ("startTime", VNum 7)];
                 inherited := [] |}
    /\ startSpan Sample.counter (VStr "A") (VObj 4) Sample.fields_store
       = (Normal s, st')
    /\ spans st' !! s = Some sp
    /\ span_operationName sp = VStr "A"
    /\ span_operationName sp <> VStr "B".
Proof.
  eexists _, _, _. split; [reflexivity|]. split; [reflexivity|].
  split; [vm_compute; reflexivity|].
  split; [vm_compute; reflexivity|].
  split; [reflexivity|discriminate].
Qed.

(** C9, as the code has it: for every name and every fields object, the
    span produced by [startSpan(name, fields)] is constructed with
    operation name [name], when [fields] has no [operationName] and also
    when the caller supplied one. *)
Theorem startSpan_names_span_after_name utils name l o (st : store) :
  objs st !! l = Some o ->
  exists s sp st',
    startSpan utils name (VObj l) st = (Normal s, st')
    /\ spans st !! s = None
    /\ spans st' !! s = Some sp
    /\ span_operationName sp = name.
Proof.
  intros Hl. unfold startSpan. simpl.
  unfold new_APMSpan, generateSpanId, new_APMSpanContext, new_object, ret, bind.
  simpl. rewrite Hl. simpl. repeat (rewrite lookup_insert_eq; simpl).
  rewrite object_get_set_eq.
  destruct (object_get (object_set "operationName" name o) "tags");
    simpl; eexists _, _, _; (split; [reflexivity|]); simpl;
    (split; [apply not_elem_of_dom, is_fresh|]);
    (split; [apply lookup_insert_eq|reflexivity]).
Qed.

Lemma startSpan_names_span_after_name_witness :
  exists s sp st',
    startSpan Sample.counter (VStr "A") (VObj 4) Sample.fields_store = (Normal s, st')
    /\ spans Sample.fields_store !! s = None
    /\ spans st' !! s = Some sp
    /\ span_operationName sp = VStr "A".
Proof.
  apply (startSpan_names_span_after_name Sample.counter (VStr "A") 4
           {| own := [("operationName", VStr "B"); ("startTime", VNum 7)];
              inherited := [] |}
           Sample.fields_store).
  reflexivity.
Defined.

(** * Further properties of the tracer *)

(** ** [inject] given a span *)

(** X1: [inject] given a span of the store does what it does given the
    context of that span (lines 148-150). *)
Theorem inject_span_as_its_context
    constants Constants utils s sp format carrier (st : store) :
  spans st !! s = Some sp ->
  inject constants Constants utils (ASpan s) format carrier st
  = inject constants Constants utils (AContext (span_context sp)) format carrier st.
Proof.
  intros Hs. unfold inject.
  destruct (negb (truthy carrier)); [reflexivity|].
  destruct (negb (String.eqb (typeof carrier) "object")); [reflexivity|].
  unfold bind at 1. unfold bind at 3.
  unfold context, span_field, ret. by rewrite Hs.
Qed.

Lemma inject_span_as_its_context_witness :
  inject Sample.hawkular Sample.opentracing Sample.counter (ASpan 3)
    (FORMAT_TEXT_MAP Sample.opentracing) (VObj 5)
    (Reuse.store_with_span Sample.checkout_context empty_object)
  = inject Sample.hawkular Sample.opentracing Sample.counter (AContext 0)
      (FORMAT_TEXT_MAP Sample.opentracing) (VObj 5)
      (Reuse.store_with_span Sample.checkout_context empty_object).
Proof.
  apply (inject_span_as_its_context Sample.hawkular Sample.opentracing Sample.counter
           3 {| span_operationName := VStr "A"; span_tags := 7; span_context := 0 |}).
  reflexivity.
Defined.

(** ** The carrier after injection *)

Lemma injected_trace_id K x v o :
  distinct_keys K -> object_get (injected K x v o) (CARRIER_TRACE_ID K) = ctx_traceId x.
Proof.
  intros Hk. destruct (distinct_keys_ne _ Hk) as (Htc & Htx & Htl & Hcx & Hcl & Hxl).
  unfold injected.
  destruct (truthy (ctx_transaction x)), (truthy (ctx_level x)); simpl;
    rewrite ?(object_get_set_ne (CARRIER_LEVEL K)) by congruence;
    rewrite ?(object_get_set_ne (CARRIER_TRANSACTION K)) by congruence;
    rewrite (object_get_set_ne (CARRIER_CORRELATION_ID K)) by congruence;
    apply object_get_set_eq.
Qed.

Lemma injected_correlation_id K x v o :
  distinct_keys K -> object_get (injected K x v o) (CARRIER_CORRELATION_ID K) = v.
Proof.
  intros Hk. destruct (distinct_keys_ne _ Hk) as (Htc & Htx & Htl & Hcx & Hcl & Hxl).
  unfold injected.
  destruct (truthy (ctx_transaction x)), (truthy (ctx_level x)); simpl;
    rewrite ?(object_get_set_ne (CARRIER_LEVEL K)) by congruence;
    rewrite ?(object_get_set_ne (CARRIER_TRANSACTION K)) by congruence;
    apply object_get_set_eq.
Qed.

Lemma injected_own K x v o :
  distinct_keys K ->
  own_lookup (CARRIER_TRACE_ID K) (own (injected K x v o)) = Some (ctx_traceId x)
  /\ own_lookup (CARRIER_CORRELATION_ID K) (own (injected K x v o)) = Some v
  /\ own_lookup (CARRIER_TRANSACTION K) (own (injected K x v o))
     = (if truthy (ctx_transaction x) then Some (ctx_transaction x)
        else own_lookup (CARRIER_TRANSACTION K) (own o))
  /\ own_lookup (CARRIER_LEVEL K) (own (injected K x v o))
     = (if truthy (ctx_level x) then Some (ctx_level x)
        else own_lookup (CARRIER_LEVEL K) (own o)).
Proof.
  intros Hk. destruct (distinct_keys_ne _ Hk) as (Htc & Htx & Htl & Hcx & Hcl & Hxl).
  unfold injected.
  destruct (truthy (ctx_transaction x)), (truthy (ctx_level x)); simpl;
    rewrite ?own_lookup_assign_eq;
    repeat (rewrite own_lookup_assign_ne by congruence; rewrite ?own_lookup_assign_eq);
    done.
Qed.

Lemma injected_other_key K x v o k :
  ~ In k (carrier_keys K) ->
  own_lookup k (own (injected K x v o)) = own_lookup k (own o).
Proof.
  unfold carrier_keys. simpl. intros Hk. unfold injected.
  destruct (truthy (ctx_transaction x)), (truthy (ctx_level x)); simpl;
    rewrite !own_lookup_assign_ne by (intros E; subst k; tauto); done.
Qed.

Lemma injected_inherited K x v o : inherited (injected K x v o) = inherited o.
Proof.
  unfold injected. by destruct (truthy (ctx_transaction x)), (truthy (ctx_level x)).
Qed.

Lemma own_keys_set k v o :
  own_keys (object_set k v o) = own_keys o
  \/ own_keys (object_set k v o) = own_keys o ++ [k].
Proof.
  unfold own_keys, object_set. simpl.
  destruct (own_lookup k (own o)) as [v0|] eqn:E.
  - left. by apply own_assign_keys_present with v0.
  - right. rewrite (own_assign_absent _ _ _ E), map_app. done.
Qed.

Lemma own_keys_set_prefix k v o : own_keys o `prefix_of` own_keys (object_set k v o).
Proof.
  destruct (own_keys_set k v o) as [-> | ->]; [done|]. by apply prefix_app_r.
Qed.

Lemma injected_keys_prefix K x v o : own_keys o `prefix_of` own_keys (injected K x v o).
Proof.
  unfold injected.
  destruct (truthy (ctx_transaction x)), (truthy (ctx_level x)); simpl;
    repeat (etrans; [|apply own_keys_set_prefix]); done.
Qed.

Lemma own_keys_set_in k v o k' :
  In k' (own_keys (object_set k v o)) -> k' = k \/ In k' (own_keys o).
Proof.
  destruct (own_keys_set k v o) as [-> | ->]; [by right|].
  rewrite in_app_iff. simpl. intuition.
Qed.

Lemma injected_keys_in K x v o k :
  In k (own_keys (injected K x v o)) -> In k (carrier_keys K) \/ In k (own_keys o).
Proof.
  unfold injected, carrier_keys. simpl.
  destruct (truthy (ctx_transaction x)), (truthy (ctx_level x)); simpl; intros H;
    repeat (apply own_keys_set_in in H as [-> | H]; [tauto|]); tauto.
Qed.

(** [inject] on a recognized format, for a context that owns a trace. *)
Lemma inject_recognized_tagged constants Constants utils format c x l o t tr (st : store) :
  format = FORMAT_HTTP_HEADERS Constants \/ format = FORMAT_TEXT_MAP Constants ->
  distinct_keys constants ->
  ctxs st !! c = Some x ->
  objs st !! l = Some o ->
  ctx_trace x = Some t ->
  traces st !! t = Some tr ->
  inject constants Constants utils (AContext c) format (VObj l) st =
    (Normal tt,
     {| objs := <[l := injected constants x (id_sequence utils (issued st)) o]> (objs st);
        ctxs := ctxs st; spans := spans st;
        traces :=
          <[t := {| nodes := nodes tr ++
                      [producer_node constants c (id_sequence utils (issued st))] |}]>
            (traces st);
        console := console st; issued := S (issued st) |}).
Proof.
  intros Hf Hk Hc Hl Ht Htr. unfold inject. simpl.
  rewrite (http_or_text_map_true _ _ Hf).
  unfold bind at 1. simpl. unfold bind at 1.
  rewrite (injectHttpAndTextMap_effect _ _ _ _ _ _ _ Hc Hl).
  unfold bind, getTrace, context_field, setNodeType. simpl. rewrite Hc, Ht. simpl.
  rewrite lookup_insert_eq. simpl. rewrite Htr.
  fold (injected constants x (id_sequence utils (issued st)) o).
  rewrite (injected_correlation_id _ _ _ _ Hk). reflexivity.
Qed.

(** [inject] on a recognized format, for a context that owns no trace. *)
Lemma inject_recognized_detached constants Constants utils format c x l o (st : store) :
  format = FORMAT_HTTP_HEADERS Constants \/ format = FORMAT_TEXT_MAP Constants ->
  ctxs st !! c = Some x ->
  objs st !! l = Some o ->
  ctx_trace x = None ->
  inject constants Constants utils (AContext c) format (VObj l) st =
    (Throw TypeError,
     {| objs := <[l := injected constants x (id_sequence utils (issued st)) o]> (objs st);
        ctxs := ctxs st; spans := spans st; traces := traces st;
        console := console st; issued := S (issued st) |}).
Proof.
  intros Hf Hc Hl Ht. unfold inject. simpl.
  rewrite (http_or_text_map_true _ _ Hf).
  unfold bind at 1. simpl. unfold bind at 1.
  rewrite (injectHttpAndTextMap_effect _ _ _ _ _ _ _ Hc Hl).
  unfold bind, getTrace, context_field. simpl. rewrite Hc, Ht. reflexivity.
Qed.

(** ** What [inject] does to the trace and to the rest of the carrier *)

(** X2: on a recognized format, with an object carrier and a context
    that owns a trace, [inject] returns normally without printing, and
    appends to that trace, after the nodes it had, one PRODUCER node for
    the context whose correlation id is the id just written under the
    carrier's correlation-id key, with interaction scope; other traces,
    the contexts and the spans are untouched. *)
Theorem inject_tags_trace_with_written_correlation_id
    constants Constants utils format c x l o t tr (st : store) :
  format = FORMAT_HTTP_HEADERS Constants \/ format = FORMAT_TEXT_MAP Constants ->
  distinct_keys constants ->
  ctxs st !! c = Some x ->
  objs st !! l = Some o ->
  ctx_trace x = Some t ->
  traces st !! t = Some tr ->
  exists st' o1 node,
    inject constants Constants utils (AContext c) format (VObj l) st = (Normal tt, st')
    /\ objs st' !! l = Some o1
    /\ traces st' !! t = Some {| nodes := nodes tr ++ [node] |}
    /\ node_type node = NODE_TYPE_PRODUCER constants
    /\ node_context node = Some c
    /\ node_correlation node =
         Some {| corr_value := object_get o1 (CARRIER_CORRELATION_ID constants);
                 corr_scope := CORR_ID_SCOPE_INTERACTION constants |}
    /\ object_get o1 (CARRIER_CORRELATION_ID constants) = id_sequence utils (issued st)
    /\ (forall t', t' <> t -> traces st' !! t' = traces st !! t')
    /\ ctxs st' = ctxs st
    /\ spans st' = spans st
    /\ console st' = console st.
Proof.
  intros Hf Hk Hc Hl Ht Htr.
  eexists _, _, _. split.
  { by apply (inject_recognized_tagged constants Constants utils format c x l o t tr). }
  simpl. split; [apply lookup_insert_eq|].
  split; [apply lookup_insert_eq|].
  split; [reflexivity|]. split; [reflexivity|].
  rewrite (injected_correlation_id _ _ _ _ Hk).
  split; [reflexivity|]. split; [reflexivity|].
  split; [|done].
  intros t' Hne. by rewrite lookup_insert_ne.
Qed.

Lemma inject_tags_trace_with_written_correlation_id_witness :
  exists st' o1 node,
    inject Sample.hawkular Sample.opentracing Sample.counter (AContext 0)
      (FORMAT_TEXT_MAP Sample.opentracing) (VObj 5)
      (Sample.store_with Sample.checkout_context empty_object) = (Normal tt, st')
    /\ objs st' !! 5 = Some o1
    /\ traces st' !! 0 = Some {| nodes := [node] |}
    /\ node_correlation node =
         Some {| corr_value := object_get o1 "HWKAPMID";
                 corr_scope := VStr "Interaction" |}
    /\ object_get o1 "HWKAPMID" = VNum 2.
Proof.
  destruct (inject_tags_trace_with_written_correlation_id Sample.hawkular
              Sample.opentracing Sample.counter (FORMAT_TEXT_MAP Sample.opentracing)
              0 Sample.checkout_context 5 empty_object 0 {| nodes := [] |}
              (Sample.store_with Sample.checkout_context empty_object)
              (or_intror eq_refl) hawkular_distinct_keys eq_refl eq_refl eq_refl eq_refl)
    as (st' & o1 & node & Hrun & Ho & Ht & _ & _ & Hcorr & Hid & _).
  exists st', o1, node. repeat split; assumption.
Defined.

(** X3: two successive [inject] calls for the same context leave two
    more nodes on its trace, in call order, carrying two different
    correlation ids, and the carrier holds the second one. *)
Theorem inject_twice_appends_two_nodes
    constants Constants utils format c x l o t tr (st : store) :
  format = FORMAT_HTTP_HEADERS Constants \/ format = FORMAT_TEXT_MAP Constants ->
  distinct_keys constants ->
  unique_ids utils ->
  ctxs st !! c = Some x ->
  objs st !! l = Some o ->
  ctx_trace x = Some t ->
  traces st !! t = Some tr ->
  exists st1 st2 v1 v2 o2,
    inject constants Constants utils (AContext c) format (VObj l) st = (Normal tt, st1)
    /\ inject constants Constants utils (AContext c) format (VObj l) st1
       = (Normal tt, st2)
    /\ traces st2 !! t =
         Some {| nodes := nodes tr ++ [producer_node constants c v1;
                                       producer_node constants c v2] |}
    /\ v1 <> v2
    /\ objs st2 !! l = Some o2
    /\ object_get o2 (CARRIER_CORRELATION_ID constants) = v2.
Proof.
  intros Hf Hk Hu Hc Hl Ht Htr.
  eexists _, _, _, _, _. split.
  { by apply (inject_recognized_tagged constants Constants utils format c x l o t tr). }
  split.
  { apply (inject_recognized_tagged constants Constants utils format c x l); simpl;
      try done; apply lookup_insert_eq. }
  simpl. split.
  { rewrite lookup_insert_eq. simpl. by rewrite <- app_assoc. }
  split.
  { intros E. apply Hu in E. lia. }
  split; [apply lookup_insert_eq|].
  by apply injected_correlation_id.
Qed.

Lemma inject_twice_appends_two_nodes_witness :
  exists st1 st2 v1 v2 o2,
    inject Sample.hawkular Sample.opentracing Sample.counter (AContext 0)
      (FORMAT_TEXT_MAP Sample.opentracing) (VObj 5)
      (Sample.store_with Sample.checkout_context empty_object) = (Normal tt, st1)
    /\ inject Sample.hawkular Sample.opentracing Sample.counter (AContext 0)
         (FORMAT_TEXT_MAP Sample.opentracing) (VObj 5) st1 = (Normal tt, st2)
    /\ traces st2 !! 0 =
         Some {| nodes := [producer_node Sample.hawkular 0 v1;
                           producer_node Sample.hawkular 0 v2] |}
    /\ v1 <> v2
    /\ objs st2 !! 5 = Some o2
    /\ object_get o2 "HWKAPMID" = v2.
Proof.
  apply (inject_twice_appends_two_nodes Sample.hawkular Sample.opentracing
           Sample.counter (FORMAT_TEXT_MAP Sample.opentracing)
           0 Sample.checkout_context 5 empty_object 0 {| nodes := [] |}
           (Sample.store_with Sample.checkout_context empty_object)
           (or_intror eq_refl) hawkular_distinct_keys counter_unique_ids
           eq_refl eq_refl eq_refl eq_refl).
Defined.

(** X4: when the context owns no trace, [inject] on a recognized format
    throws a TypeError at the tagging step, after the carrier has been
    written: the trace id and a correlation id are in the carrier and the
    identifier is consumed, although the call failed. *)
Theorem inject_without_trace_throws_after_writing
    constants Constants utils format c x l o (st : store) :
  format = FORMAT_HTTP_HEADERS Constants \/ format = FORMAT_TEXT_MAP Constants ->
  distinct_keys constants ->
  ctxs st !! c = Some x ->
  objs st !! l = Some o ->
  ctx_trace x = None ->
  exists st' o1,
    inject constants Constants utils (AContext c) format (VObj l) st
      = (Throw TypeError, st')
    /\ objs st' !! l = Some o1
    /\ object_get o1 (CARRIER_TRACE_ID constants) = ctx_traceId x
    /\ object_get o1 (CARRIER_CORRELATION_ID constants) = id_sequence utils (issued st)
    /\ issued st' = S (issued st)
    /\ traces st' = traces st
    /\ console st' = console st.
Proof.
  intros Hf Hk Hc Hl Ht.
  eexists _, _. split.
  { by apply (inject_recognized_detached constants Constants utils format c x l o). }
  simpl. split; [apply lookup_insert_eq|].
  split; [by apply injected_trace_id|].
  split; [by apply injected_correlation_id|]. done.
Qed.

Lemma inject_without_trace_throws_after_writing_witness :
  exists st' o1,
    inject Sample.hawkular Sample.opentracing Sample.counter (AContext 0)
      (FORMAT_HTTP_HEADERS Sample.opentracing) (VObj 5)
      (Sample.store_with Reuse.detached_context empty_object) = (Throw TypeError, st')
    /\ objs st' !! 5 = Some o1
    /\ object_get o1 "HWKAPMTRACEID" = VNum 1
    /\ object_get o1 "HWKAPMID" = VNum 2
    /\ issued st' = 3
    /\ traces st' = {[ 0 := {| nodes := [] |} ]}
    /\ console st' = [].
Proof.
  apply (inject_without_trace_throws_after_writing Sample.hawkular Sample.opentracing
           Sample.counter (FORMAT_HTTP_HEADERS Sample.opentracing)
           0 Reuse.detached_context 5 empty_object
           (Sample.store_with Reuse.detached_context empty_object)
           (or_introl eq_refl) hawkular_distinct_keys eq_refl eq_refl eq_refl).
Defined.

(** X5: on a recognized format [inject] never removes or reorders what
    the carrier held: the keys it had stay first and in order, every key
    the carrier gains is one of the four carrier keys, every property
    under another key keeps its value, the inherited properties and all
    other objects of the store are as before. *)
Theorem inject_keeps_foreign_entries
    constants Constants utils format c x l o (st : store) :
  format = FORMAT_HTTP_HEADERS Constants \/ format = FORMAT_TEXT_MAP Constants ->
  ctxs st !! c = Some x ->
  objs st !! l = Some o ->
  exists o1,
    objs (inject constants Constants utils (AContext c) format (VObj l) st).2 !! l
      = Some o1
    /\ own_keys o `prefix_of` own_keys o1
    /\ (forall k, In k (own_keys o1) ->
          In k (carrier_keys constants) \/ In k (own_keys o))
    /\ (forall k, ~ In k (carrier_keys constants) ->
          own_lookup k (own o1) = own_lookup k (own o))
    /\ inherited o1 = inherited o
    /\ (forall l', l' <> l ->
          objs (inject constants Constants utils (AContext c) format (VObj l) st).2 !! l'
          = objs st !! l').
Proof.
  intros Hf Hc Hl.
  destruct (inject_recognized_run constants Constants utils format c x l o st Hf Hc Hl)
    as (r & tr & ->).
  exists (injected constants x (id_sequence utils (issued st)) o). simpl.
  split; [apply lookup_insert_eq|].
  split; [apply injected_keys_prefix|].
  split; [intros k; apply injected_keys_in|].
  split; [intros k; apply injected_other_key|].
  split; [apply injected_inherited|].
  intros l' Hne. by rewrite lookup_insert_ne.
Qed.

Lemma inject_keeps_foreign_entries_witness :
  exists o1,
    objs (inject Sample.hawkular Sample.opentracing Sample.counter (AContext 0)
            (FORMAT_HTTP_HEADERS Sample.opentracing) (VObj 5)
            (Sample.store_with Reuse.bare_context Reuse.stale_headers)).2 !! 5
      = Some o1
    /\ ["Accept"; "HWKAPMTXN"] `prefix_of` own_keys o1
    /\ own_lookup "Accept" (own o1) = Some (VStr "text/html").
Proof.
  destruct (inject_keeps_foreign_entries Sample.hawkular Sample.opentracing
              Sample.counter (FORMAT_HTTP_HEADERS Sample.opentracing)
              0 Reuse.bare_context 5 Reuse.stale_headers
              (Sample.store_with Reuse.bare_context Reuse.stale_headers)
              (or_introl eq_refl) eq_refl eq_refl)
    as (o1 & Ho & Hpre & _ & Hother & _).
  exists o1. split; [exact Ho|]. split; [exact Hpre|].
  rewrite Hother; [reflexivity|].
  simpl. intros [H|[H|[H|[H|[]]]]]; discriminate.
Defined.

(** ** Round trip through a carrier that is not empty *)

Lemma eq_ignore_case_refl runtime k : eq_ignore_case runtime k k = true.
Proof. unfold eq_ignore_case. apply String.eqb_refl. Qed.

Lemma own_key_lookup k ps : In k (map fst ps) -> is_Some (own_lookup k ps).
Proof.
  induction ps as [|[k0 v0] ps IH]; simpl; [done|].
  destruct (String.eqb k0 k) eqn:E; [by eexists|].
  apply String.eqb_neq in E. intros [H|H]; [done|]. by apply IH.
Qed.

Lemma recovered_capital_only runtime name o :
  (forall k, In k (own_keys o) -> eq_ignore_case runtime k name = true -> k = name) ->
  spec_recovered runtime name o = own_lookup name (own o).
Proof.
  intros Honly. destruct (own_lookup name (own o)) as [v|] eqn:E.
  - apply recovered_single_spelling with name; [done|apply eq_ignore_case_refl|done].
  - apply recovered_absent. intros k Hin.
    destruct (eq_ignore_case runtime k name) eqn:Ek; [|done].
    rewrite (Honly k Hin Ek) in Hin.
    apply own_key_lookup in Hin as [v Hv]. unfold own_keys in *. congruence.
Qed.

Lemma capital_keys_ignore_case runtime K a b :
  capital_keys runtime K -> In a (carrier_keys K) -> In b (carrier_keys K) ->
  eq_ignore_case runtime a b = true -> a = b.
Proof.
  intros Hcap Ha Hb. unfold eq_ignore_case.
  unfold capital_keys in Hcap. rewrite List.Forall_forall in Hcap.
  rewrite (Hcap a Ha), (Hcap b Hb). apply String.eqb_eq.
Qed.

Lemma capital_spellings_injected runtime K x v o :
  capital_keys runtime K -> capital_spellings runtime K o -> capital_spellings runtime K (injected K x v o).
Proof.
  intros Hcap Ho k name Hin Hname Hcase.
  apply injected_keys_in in Hin as [Hin|Hin].
  - by apply (capital_keys_ignore_case runtime K).
  - by apply Ho.
Qed.

(** X6: round trip through a carrier that already holds entries.  If
    the carrier spells the four names in capitals only, then extracting
    (in either recognized format) from what [inject] (in either
    recognized format) made of it yields the context's trace id and the
    correlation id minted by this [inject]; the transaction and the level
    are the context's when truthy, and otherwise whatever the carrier held
    before the call (undefined if nothing): a stale entry of a reused
    carrier is taken for the context's. *)
Theorem round_trip_through_reused_carrier
    constants Constants utils runtime f_in f_out c x l o (st : store) :
  f_in = FORMAT_HTTP_HEADERS Constants \/ f_in = FORMAT_TEXT_MAP Constants ->
  f_out = FORMAT_HTTP_HEADERS Constants \/ f_out = FORMAT_TEXT_MAP Constants ->
  distinct_keys constants ->
  capital_keys runtime constants ->
  ctxs st !! c = Some x ->
  objs st !! l = Some o ->
  capital_spellings runtime constants o ->
  exists c' y st2,
    extract constants Constants utils runtime f_out (VObj l)
      (inject constants Constants utils (AContext c) f_in (VObj l) st).2
    = (Normal c', st2)
    /\ ctxs st2 !! c' = Some y
    /\ ctx_traceId y = ctx_traceId x
    /\ ctx_consumerCorrelationId y = id_sequence utils (issued st)
    /\ ctx_transaction y
       = (if truthy (ctx_transaction x) then ctx_transaction x
          else default VUndefined (own_lookup (CARRIER_TRANSACTION constants) (own o)))
    /\ ctx_level y
       = (if truthy (ctx_level x) then ctx_level x
          else default VUndefined (own_lookup (CARRIER_LEVEL constants) (own o))).
Proof.
  intros Hin Hout Hk Hcap Hc Hl Ho.
  destruct (capital_keys_eq _ _ Hcap) as (Ut & Uc & Ux & Uv).
  destruct (inject_recognized_run constants Constants utils f_in c x l o st Hin Hc Hl)
    as (r & tr & ->).
  simpl.
  pose (o1 := injected constants x (id_sequence utils (issued st)) o).
  assert (Ho1 : capital_spellings runtime constants o1)
    by (by apply capital_spellings_injected).
  assert (Hrec : forall name, In name (carrier_keys constants) ->
            spec_recovered runtime name o1 = own_lookup name (own o1)).
  { intros name Hname. apply recovered_capital_only.
    intros k Hkin Hcase. by apply Ho1. }
  destruct (injected_own constants x (id_sequence utils (issued st)) o Hk)
    as (Ht & Hco & Htx & Hlv).
  fold o1 in Ht, Hco, Htx, Hlv.
  eexists _, _, _. split.
  { apply extract_recognized_run; [done|done|]. simpl. apply lookup_insert_eq. }
  simpl. split; [apply lookup_insert_eq|]. simpl.
  fold o1. rewrite <- !recovered_by_upper_case by assumption.
  rewrite !Hrec by (unfold carrier_keys; simpl; tauto).
  rewrite Ht, Hco, Htx, Hlv.
  destruct (truthy (ctx_transaction x)), (truthy (ctx_level x)); done.
Qed.

Lemma hawkular_stale_headers_capital :
  capital_spellings Sample.ascii Sample.hawkular Reuse.stale_headers.
Proof.
  intros k name Hk Hname Hcase. simpl in Hk, Hname.
  destruct Hk as [<-|[<-|[]]];
    destruct Hname as [<-|[<-|[<-|[<-|[]]]]]; first [reflexivity | discriminate].
Defined.

Lemma round_trip_through_reused_carrier_witness :
  exists c' y st2,
    extract Sample.hawkular Sample.opentracing Sample.counter Sample.ascii
      (FORMAT_TEXT_MAP Sample.opentracing) (VObj 5)
      (inject Sample.hawkular Sample.opentracing Sample.counter (AContext 0)
         (FORMAT_HTTP_HEADERS Sample.opentracing) (VObj 5)
         (Sample.store_with Reuse.bare_context Reuse.stale_headers)).2
    = (Normal c', st2)
    /\ ctxs st2 !! c' = Some y
    /\ ctx_traceId y = VNum 1
    /\ ctx_consumerCorrelationId y = VNum 2
    /\ ctx_transaction y = VStr "stale"
    /\ ctx_level y = VUndefined.
Proof.
  apply (round_trip_through_reused_carrier Sample.hawkular Sample.opentracing
           Sample.counter Sample.ascii (FORMAT_HTTP_HEADERS Sample.opentracing)
           (FORMAT_TEXT_MAP Sample.opentracing) 0 Reuse.bare_context 5
           Reuse.stale_headers
           (Sample.store_with Reuse.bare_context Reuse.stale_headers)
           (or_introl eq_refl) (or_intror eq_refl)
           hawkular_distinct_keys hawkular_capital_keys eq_refl eq_refl
           hawkular_stale_headers_capital).
Defined.

(** ** More on [extract] *)

(** X7: on a recognized format a carrier that is a number or a boolean
    is accepted silently: [Object.keys] finds no key, so [extract] returns
    a new context with a fresh span id, no trace id, no transaction, no
    level, and [null] as consumer correlation id, and prints nothing. *)
Theorem extract_number_or_boolean_carrier
    constants Constants utils runtime format carrier (st : store) :
  format = FORMAT_HTTP_HEADERS Constants \/ format = FORMAT_TEXT_MAP Constants ->
  (exists n, carrier = VNum n) \/ (exists b, carrier = VBool b) ->
  exists c st',
    extract constants Constants utils runtime format carrier st = (Normal c, st')
    /\ ctxs st !! c = None
    /\ ctxs st' !! c =
         Some {| ctx_id := id_sequence utils (issued st); ctx_traceId := VUndefined;
                 ctx_parentId := VUndefined; ctx_transaction := VUndefined;
                 ctx_level := VUndefined; ctx_consumerCorrelationId := VNull;
                 ctx_trace := None |}
    /\ console st' = console st
    /\ objs st' = objs st
    /\ issued st' = S (issued st).
Proof.
  intros Hf Hcarrier. unfold extract.
  rewrite (http_or_text_map_true _ _ Hf).
  destruct Hcarrier as [[n ->]|[b ->]];
    unfold _extractHttpAndTextMap, bind, generateSpanId, new_APMSpanContext,
      setConsumerCorrelationId, ret; simpl;
    rewrite lookup_insert_eq; simpl;
    eexists _, _; (split; [reflexivity|]); simpl;
    (split; [apply not_elem_of_dom, is_fresh|]);
    (split; [by rewrite insert_insert_eq, lookup_insert_eq|]); done.
Qed.

Lemma extract_number_or_boolean_carrier_witness :
  exists c st',
    extract Sample.hawkular Sample.opentracing Sample.counter Sample.ascii
      (FORMAT_TEXT_MAP Sample.opentracing) (VNum 42)
      (Sample.store_with Sample.checkout_context empty_object) = (Normal c, st')
    /\ ctxs (Sample.store_with Sample.checkout_context empty_object) !! c = None
    /\ ctxs st' !! c =
         Some {| ctx_id := VNum 2; ctx_traceId := VUndefined;
                 ctx_parentId := VUndefined; ctx_transaction := VUndefined;
                 ctx_level := VUndefined; ctx_consumerCorrelationId := VNull;
                 ctx_trace := None |}
    /\ console st' = []
    /\ objs st' = {[ 5 := empty_object ]}
    /\ issued st' = 3.
Proof.
  apply (extract_number_or_boolean_carrier Sample.hawkular Sample.opentracing
           Sample.counter Sample.ascii (FORMAT_TEXT_MAP Sample.opentracing) (VNum 42)
           (Sample.store_with Sample.checkout_context empty_object)
           (or_intror eq_refl)).
  left. exists 42%Z. reflexivity.
Defined.

Lemma recovered_last_spelling runtime name o ks1 k ks2 :
  own_keys o = ks1 ++ k :: ks2 ->
  eq_ignore_case runtime k name = true ->
  (forall k', In k' ks2 -> eq_ignore_case runtime k' name = false) ->
  spec_recovered runtime name o = Some (object_get o k).
Proof.
  intros Hkeys Hk Hlater. unfold spec_recovered.
  rewrite Hkeys, List.filter_app. simpl. rewrite Hk.
  rewrite (filter_none _ ks2 Hlater).
  by rewrite last_snoc.
Qed.

(** X8: when several keys of the carrier spell the same name, the last
    one in key order wins: the field holds the value read under the last
    key that matches the name regardless of letter case. *)
Theorem extract_last_spelling_wins
    constants Constants utils runtime format l o ks1 k ks2 name (st : store) :
  format = FORMAT_HTTP_HEADERS Constants \/ format = FORMAT_TEXT_MAP Constants ->
  distinct_keys constants ->
  capital_keys runtime constants ->
  objs st !! l = Some o ->
  own_keys o = ks1 ++ k :: ks2 ->
  eq_ignore_case runtime k name = true ->
  (forall k', In k' ks2 -> eq_ignore_case runtime k' name = false) ->
  exists c y st',
    extract constants Constants utils runtime format (VObj l) st = (Normal c, st')
    /\ ctxs st' !! c = Some y
    /\ (name = CARRIER_TRACE_ID constants -> ctx_traceId y = object_get o k)
    /\ (name = CARRIER_CORRELATION_ID constants ->
        ctx_consumerCorrelationId y = object_get o k)
    /\ (name = CARRIER_TRANSACTION constants -> ctx_transaction y = object_get o k)
    /\ (name = CARRIER_LEVEL constants -> ctx_level y = object_get o k).
Proof.
  intros Hf Hk Hcap Hl Hkeys Hcase Hlater.
  destruct (capital_keys_eq _ _ Hcap) as (Ut & Uc & Ux & Uv).
  pose proof (recovered_last_spelling runtime name o ks1 k ks2 Hkeys Hcase Hlater) as Hrec.
  eexists _, _, _. split.
  { by apply extract_recognized_run. }
  simpl. split; [apply lookup_insert_eq|]. simpl.
  rewrite <- !recovered_by_upper_case by assumption.
  repeat split; intros <-; by rewrite Hrec.
Qed.

Lemma extract_last_spelling_wins_witness :
  exists c y st',
    extract Sample.hawkular Sample.opentracing Sample.counter Sample.ascii
      (FORMAT_TEXT_MAP Sample.opentracing) (VObj 5)
      (Sample.store_with Sample.checkout_context Reuse.twice_spelled) = (Normal c, st')
    /\ ctxs st' !! c = Some y
    /\ ctx_traceId y = VStr "second".
Proof.
  destruct (extract_last_spelling_wins Sample.hawkular Sample.opentracing
              Sample.counter Sample.ascii (FORMAT_TEXT_MAP Sample.opentracing) 5 Reuse.twice_spelled
              ["HWKAPMTRACEID"; "hwkapmid"] "hwkapmtraceid" ["Host"] "HWKAPMTRACEID"
              (Sample.store_with Sample.checkout_context Reuse.twice_spelled)
              (or_intror eq_refl) hawkular_distinct_keys hawkular_capital_keys
              eq_refl eq_refl eq_refl)
    as (c & y & st' & Hrun & Hy & Htrace & _).
  { intros k' [<-|[]]. reflexivity. }
  exists c, y, st'. split; [exact Hrun|]. split; [exact Hy|].
  exact (Htrace eq_refl).
Defined.

Lemma fresh_insert_ne {A} (m : gmap loc A) (y : A) :
  fresh (dom m) <> fresh (dom (<[fresh (dom m) := y]> m)).
Proof.
  intros E.
  pose proof (is_fresh (dom (<[fresh (dom m) := y]> m))) as H.
  rewrite <- E in H. apply H. rewrite dom_insert_L. set_solver.
Qed.

(** X9: extracting twice from the same carrier gives two different
    context objects with two different span ids and the same trace id,
    consumer correlation id, transaction and level; the first context is
    still in the store, unchanged, after the second call. *)
Theorem extract_twice_two_contexts
    constants Constants utils runtime format l o (st : store) :
  format = FORMAT_HTTP_HEADERS Constants \/ format = FORMAT_TEXT_MAP Constants ->
  distinct_keys constants ->
  unique_ids utils ->
  objs st !! l = Some o ->
  exists c1 c2 y1 y2 st1 st2,
    extract constants Constants utils runtime format (VObj l) st = (Normal c1, st1)
    /\ extract constants Constants utils runtime format (VObj l) st1 = (Normal c2, st2)
    /\ c1 <> c2
    /\ ctxs st1 !! c1 = Some y1
    /\ ctxs st2 !! c1 = Some y1
    /\ ctxs st2 !! c2 = Some y2
    /\ ctx_id y1 <> ctx_id y2
    /\ ctx_traceId y1 = ctx_traceId y2
    /\ ctx_consumerCorrelationId y1 = ctx_consumerCorrelationId y2
    /\ ctx_transaction y1 = ctx_transaction y2
    /\ ctx_level y1 = ctx_level y2.
Proof.
  intros Hf Hk Hu Hl.
  eexists _, _, _, _, _, _. split.
  { by apply extract_recognized_run. }
  split.
  { apply extract_recognized_run; [done|done|exact Hl]. }
  simpl.
  split; [apply fresh_insert_ne|].
  split; [apply lookup_insert_eq|].
  split; [rewrite lookup_insert_ne by (intros E; symmetry in E; by apply fresh_insert_ne in E);
          apply lookup_insert_eq|].
  split; [apply lookup_insert_eq|]. simpl.
  split; [|done].
  intros E. apply Hu in E. lia.
Qed.

Lemma extract_twice_two_contexts_witness :
  exists c1 c2 y1 y2 st1 st2,
    extract Sample.hawkular Sample.opentracing Sample.counter Sample.ascii
      (FORMAT_TEXT_MAP Sample.opentracing) (VObj 5)
      (Sample.store_with Sample.checkout_context Sample.mixed_case_carrier)
    = (Normal c1, st1)
    /\ extract Sample.hawkular Sample.opentracing Sample.counter Sample.ascii
         (FORMAT_TEXT_MAP Sample.opentracing) (VObj 5) st1 = (Normal c2, st2)
    /\ c1 <> c2
    /\ ctxs st1 !! c1 = Some y1
    /\ ctxs st2 !! c1 = Some y1
    /\ ctxs st2 !! c2 = Some y2
    /\ ctx_id y1 <> ctx_id y2
    /\ ctx_traceId y1 = ctx_traceId y2
    /\ ctx_consumerCorrelationId y1 = ctx_consumerCorrelationId y2
    /\ ctx_transaction y1 = ctx_transaction y2
    /\ ctx_level y1 = ctx_level y2.
Proof.
  apply (extract_twice_two_contexts Sample.hawkular Sample.opentracing Sample.counter Sample.ascii
           (FORMAT_TEXT_MAP Sample.opentracing) 5 Sample.mixed_case_carrier
           (Sample.store_with Sample.checkout_context Sample.mixed_case_carrier)
           (or_intror eq_refl) hawkular_distinct_keys counter_unique_ids eq_refl).
Defined.

Lemma own_lookup_in k v ps : own_lookup k ps = Some v -> In (k, v) ps.
Proof.
  induction ps as [|[k0 v0] ps IH]; simpl; [done|].
  destruct (String.eqb k0 k) eqn:E.
  - apply String.eqb_eq in E. intros [= ->]. subst. by left.
  - intros H. right. by apply IH.
Qed.

Lemma own_lookup_nodup k v ps :
  NoDup (map fst ps) -> In (k, v) ps -> own_lookup k ps = Some v.
Proof.
  induction ps as [|[k0 v0] ps IH]; simpl; [done|].
  rewrite NoDup_cons. intros [Hfirst Hrest] [[= -> ->]|Hin].
  - by rewrite String.eqb_refl.
  - destruct (String.eqb k0 k) eqn:E; [|by apply IH].
    apply String.eqb_eq in E. subst k0. destruct Hfirst.
    apply list_elem_of_In, in_map_iff. by exists (k, v).
Qed.

Lemma recovered_permutation runtime name o o' :
  Permutation (own o) (own o') ->
  NoDup (own_keys o) ->
  (forall k1 k2, In k1 (own_keys o) -> In k2 (own_keys o) ->
     eq_ignore_case runtime k1 name = true -> eq_ignore_case runtime k2 name = true -> k1 = k2) ->
  spec_recovered runtime name o' = spec_recovered runtime name o.
Proof.
  intros Hperm Hnodup Honce.
  assert (Hkeys : Permutation (own_keys o) (own_keys o'))
    by (by apply Permutation_map).
  assert (Hnodup' : NoDup (own_keys o')) by (by rewrite <- Hkeys).
  destruct (List.filter (fun k => eq_ignore_case runtime k name) (own_keys o))
    as [|k rest] eqn:Ef.
  - assert (Habs : forall k, In k (own_keys o) -> eq_ignore_case runtime k name = false).
    { intros k Hin. destruct (eq_ignore_case runtime k name) eqn:Ek; [|done].
      assert (Hk : In k (List.filter (fun k => eq_ignore_case runtime k name) (own_keys o)))
        by (apply filter_In; by split).
      rewrite Ef in Hk. destruct Hk. }
    rewrite (recovered_absent runtime name o Habs).
    apply recovered_absent. intros k Hin. apply Habs.
    by apply (Permutation_in _ (Permutation_sym Hkeys)).
  - assert (Hk : In k (own_keys o) /\ eq_ignore_case runtime k name = true).
    { apply (filter_In (fun k => eq_ignore_case runtime k name)). rewrite Ef. by left. }
    destruct Hk as [Hin Hcase].
    destruct (own_key_lookup k (own o) Hin) as [v Hv].
    rewrite (recovered_single_spelling runtime name o k v Hv Hcase).
    2: { intros k' Hin' Hcase'. by apply Honce. }
    apply recovered_single_spelling with k; [|done|].
    + apply own_lookup_nodup; [done|].
      apply (Permutation_in _ Hperm). by apply own_lookup_in.
    + intros k' Hin' Hcase'. apply Honce; [|done|done|done].
      by apply (Permutation_in _ (Permutation_sym Hkeys)).
Qed.

(** X10: the order of the carrier's entries does not matter as long as
    no name is spelled by two keys: a carrier with the same entries in
    another order gives a context with the same fields. *)
Theorem extract_ignores_entry_order
    constants Constants utils runtime format l o o' (st : store) :
  format = FORMAT_HTTP_HEADERS Constants \/ format = FORMAT_TEXT_MAP Constants ->
  distinct_keys constants ->
  capital_keys runtime constants ->
  objs st !! l = Some o ->
  Permutation (own o) (own o') ->
  inherited o' = inherited o ->
  NoDup (own_keys o) ->
  (forall name k1 k2,
     In name (carrier_keys constants) ->
     In k1 (own_keys o) -> In k2 (own_keys o) ->
     eq_ignore_case runtime k1 name = true -> eq_ignore_case runtime k2 name = true -> k1 = k2) ->
  exists c y st1 st2,
    extract constants Constants utils runtime format (VObj l) st = (Normal c, st1)
    /\ extract constants Constants utils runtime format (VObj l)
         (with_objs (insert l o') st) = (Normal c, st2)
    /\ ctxs st1 !! c = Some y
    /\ ctxs st2 !! c = Some y.
Proof.
  intros Hf Hk Hcap Hl Hperm Hinh Hnodup Honce.
  destruct (capital_keys_eq _ _ Hcap) as (Ut & Uc & Ux & Uv).
  assert (Hl' : objs (with_objs (insert l o') st) !! l = Some o')
    by apply lookup_insert_eq.
  eexists _, _, _, _. split.
  { by apply extract_recognized_run. }
  split.
  { rewrite (extract_recognized_run _ _ _ _ _ _ _ _ Hf Hk Hl').
    rewrite <- !recovered_by_upper_case by assumption.
    rewrite !(recovered_permutation _ _ o o') by
      (first [ assumption
             | intros k1 k2; apply Honce; unfold carrier_keys; simpl; tauto ]).
    rewrite !recovered_by_upper_case by assumption.
    reflexivity. }
  simpl. split; apply lookup_insert_eq.
Qed.

Lemma extract_ignores_entry_order_witness :
  exists c y st1 st2,
    extract Sample.hawkular Sample.opentracing Sample.counter Sample.ascii
      (FORMAT_TEXT_MAP Sample.opentracing) (VObj 5)
      (Sample.store_with Sample.checkout_context Reuse.stale_headers) = (Normal c, st1)
    /\ extract Sample.hawkular Sample.opentracing Sample.counter Sample.ascii
         (FORMAT_TEXT_MAP Sample.opentracing) (VObj 5)
         (with_objs (insert 5 {| own := [("HWKAPMTXN", VStr "stale");
                                         ("Accept", VStr "text/html")];
                                 inherited := [] |})
            (Sample.store_with Sample.checkout_context Reuse.stale_headers))
       = (Normal c, st2)
    /\ ctxs st1 !! c = Some y
    /\ ctxs st2 !! c = Some y.
Proof.
  apply (extract_ignores_entry_order Sample.hawkular Sample.opentracing Sample.counter Sample.ascii
           (FORMAT_TEXT_MAP Sample.opentracing) 5 Reuse.stale_headers
           {| own := [("HWKAPMTXN", VStr "stale"); ("Accept", VStr "text/html")];
              inherited := [] |}
           (Sample.store_with Sample.checkout_context Reuse.stale_headers)
           (or_intror eq_refl) hawkular_distinct_keys hawkular_capital_keys eq_refl).
  - apply perm_swap.
  - reflexivity.
  - apply (bool_decide_unpack _). reflexivity.
  - intros name k1 k2 _ H1 H2 E1 E2. simpl in H1, H2.
    destruct H1 as [<-|[<-|[]]], H2 as [<-|[<-|[]]];
      first [reflexivity | discriminate | idtac].
    + simpl in E1, E2. unfold eq_ignore_case in E1, E2.
      apply String.eqb_eq in E1, E2. simpl in E1, E2. congruence.
    + simpl in E1, E2. unfold eq_ignore_case in E1, E2.
      apply String.eqb_eq in E1, E2. simpl in E1, E2. congruence.
Defined.

(** ** More on [startSpan] *)

(** X11: when [fields] is omitted or falsy, [startSpan] builds the span
    from a new object of its own that holds [name] as [operationName] and
    nothing else: every object the store had is as it was, and the new
    span has operation name [name]. *)
Theorem startSpan_without_fields utils name fields (st : store) :
  truthy fields = false ->
  exists s sp lf st',
    startSpan utils name fields st = (Normal s, st')
    /\ objs st !! lf = None
    /\ objs st' !! lf = Some {| own := [("operationName", name)]; inherited := [] |}
    /\ (forall l' o, objs st !! l' = Some o -> objs st' !! l' = Some o)
    /\ spans st !! s = None
    /\ spans st' !! s = Some sp
    /\ span_operationName sp = name.
Proof.
  intros Hf. unfold startSpan. rewrite Hf.
  unfold new_APMSpan, generateSpanId, new_APMSpanContext, new_object, ret, bind.
  simpl. repeat (rewrite lookup_insert_eq; simpl).
  unfold with_objs. simpl. rewrite !insert_insert_eq.
  eexists _, _, _, _. split; [reflexivity|]. simpl.
  split; [apply not_elem_of_dom, is_fresh|].
  split.
  { rewrite lookup_insert_ne by (intros E; symmetry in E; by apply fresh_insert_ne in E).
    apply lookup_insert_eq. }
  split.
  { intros l' o Ho.
    assert (Hl1 : fresh (dom (objs st)) <> l').
    { intros E. apply (is_fresh (dom (objs st))). rewrite E.
      apply elem_of_dom. by eexists. }
    rewrite lookup_insert_ne.
    - rewrite lookup_insert_ne by done. exact Ho.
    - intros E.
      apply (is_fresh (dom (<[fresh (dom (objs st)) :=
                object_set "operationName" name empty_object]> (objs st)))).
      rewrite E. apply elem_of_dom. rewrite lookup_insert_ne by done. by eexists. }
  split; [apply not_elem_of_dom, is_fresh|].
  split; [apply lookup_insert_eq|]. reflexivity.
Qed.

Lemma startSpan_without_fields_witness :
  exists s sp lf st',
    startSpan Sample.counter (VStr "A") VUndefined Sample.fields_store = (Normal s, st')
    /\ objs Sample.fields_store !! lf = None
    /\ objs st' !! lf = Some {| own := [("operationName", VStr "A")]; inherited := [] |}
    /\ (forall l' o, objs Sample.fields_store !! l' = Some o -> objs st' !! l' = Some o)
    /\ spans Sample.fields_store !! s = None
    /\ spans st' !! s = Some sp
    /\ span_operationName sp = VStr "A".
Proof.
  apply (startSpan_without_fields Sample.counter (VStr "A") VUndefined
           Sample.fields_store).
  reflexivity.
Defined.

(** X12: a truthy [fields] argument that is not an object (a non-zero
    number, a non-empty string, [true]) makes [startSpan] throw a
    TypeError at the assignment of [operationName]; no span is created
    and the store is unchanged. *)
Theorem startSpan_primitive_fields_throws utils name fields (st : store) :
  truthy fields = true ->
  (forall l, fields <> VObj l) ->
  startSpan utils name fields st = (Throw TypeError, st).
Proof.
  intros Ht Hprim. unfold startSpan. rewrite Ht.
  destruct fields as [| |b|n|s|l]; try discriminate; try reflexivity.
  by destruct (Hprim l).
Qed.

Lemma startSpan_primitive_fields_throws_witness :
  startSpan Sample.counter (VStr "A") (VNum 42) Sample.fields_store
  = (Throw TypeError, Sample.fields_store).
Proof.
  apply (startSpan_primitive_fields_throws Sample.counter (VStr "A") (VNum 42)
           Sample.fields_store).
  - reflexivity.
  - intros l. discriminate.
Defined.

(** ** More on the trace decorator *)

(** X13: after decoration the root span has, as own tags, a
    service-name tag whenever the metadata has a truthy service name and a
    build-stamp tag whenever it has a truthy build stamp, be it the
    caller's or the metadata's; and when the metadata has neither, the
    store is exactly as before. *)
Theorem trace_decorator_leaves_root_tagged constants md t tr n ns s sp o (st : store) :
  traces st !! t = Some tr ->
  nodes tr = n :: ns ->
  node_span n = Some s ->
  spans st !! s = Some sp ->
  objs st !! span_tags sp = Some o ->
  exists o' st',
    TRACE_DECORATOR constants md t st = (Normal tt, st')
    /\ objs st' !! span_tags sp = Some o'
    /\ (truthy (serviceName md) = true ->
        hasOwnProperty o' (PROP_SERVICE_NAME constants) = true)
    /\ (truthy (buildStamp md) = true ->
        hasOwnProperty o' (PROP_BUILD_STAMP constants) = true)
    /\ (truthy (serviceName md) = false -> truthy (buildStamp md) = false ->
        st' = st).
Proof.
  intros Ht Hn Hs Hsp Ho.
  eexists _, _. split; [by apply (decorator_run constants md t tr n ns s sp o)|].
  simpl. split; [apply lookup_insert_eq|].
  split.
  { intros Hv. apply tag_if_missing_keeps.
    destruct (tag_if_missing_settles (PROP_SERVICE_NAME constants) (serviceName md) o)
      as [H|H]; [congruence|done]. }
  split.
  { intros Hv.
    destruct (tag_if_missing_settles (PROP_BUILD_STAMP constants) (buildStamp md)
                (tag_if_missing (PROP_SERVICE_NAME constants) (serviceName md) o))
      as [H|H]; [congruence|done]. }
  intros Hs0 Hb0. unfold tag_if_missing. rewrite Hs0, Hb0. simpl.
  destruct st. unfold with_objs. simpl in *. by rewrite insert_id.
Qed.

Lemma trace_decorator_leaves_root_tagged_witness :
  exists o' st',
    TRACE_DECORATOR Sample.hawkular Sample.other_service 0 Sample.tagged_store
      = (Normal tt, st')
    /\ objs st' !! 7 = Some o'
    /\ hasOwnProperty o' "service" = true
    /\ hasOwnProperty o' "buildStamp" = true.
Proof.
  destruct (trace_decorator_leaves_root_tagged Sample.hawkular Sample.other_service 0
              {| nodes := [ {| node_span := Some 3; node_type := VUndefined;
                               node_context := Some 0;
                               node_correlation := None |} ] |}
              {| node_span := Some 3; node_type := VUndefined;
                 node_context := Some 0; node_correlation := None |} []
              3 {| span_operationName := VStr "A"; span_tags := 7; span_context := 0 |}
              {| own := [("service", VStr "checkout")];
                 inherited := [("buildStamp", VStr "old")] |}
              Sample.tagged_store eq_refl eq_refl eq_refl eq_refl eq_refl)
    as (o' & st' & Hrun & Ho & Hservice & Hbuild & _).
  exists o', st'. split; [exact Hrun|]. split; [exact Ho|].
  split; [exact (Hservice eq_refl) | exact (Hbuild eq_refl)].
Defined.
